(** * Tax authority client (student_b/tax_client.py)

    A shallow embedding of [TaxAuthorityClient]: the schema validator
    [validate_invoice_schema], the single-attempt executor [submit_invoice]
    and the retry orchestrator [submit_invoice_with_retry].

    Documents are Python dictionaries holding JSON-like values, so the
    embedding keeps Python's dynamic behaviour: [in], subscripts, [len] and
    iteration are defined on every JSON value and raise [TypeError] where
    Python does.  Strings are sequences of 8-bit characters.  The HTTP
    transport, the clock and [time.sleep] are external collaborators: what
    they answer is a parameter of the client and the calls made to them are
    recorded in a trace.  Logger calls only write to the logging sink and
    are left out. *)

From Stdlib Require Import ZArith QArith List String Ascii DecimalString Bool Lia.
Import ListNotations.
Local Open Scope Z_scope.
Local Open Scope list_scope.
Local Open Scope string_scope.

(** ** Python values and built-ins *)

Module Py.

(** JSON-like Python values.  A [dict] keeps its insertion order, hence the
    association list; [int] is unbounded; a finite [float] is the rational
    it denotes (the code only observes whether it is zero). *)
#[local] Unset Elimination Schemes.
Inductive json : Type :=
| JNull
| JBool (b : bool)
| JInt (n : Z)
| JFloat (x : Q)
| JStr (s : string)
| JArr (l : list json)
| JObj (m : list (string * json)).
#[local] Set Elimination Schemes.

Definition dict : Type := list (string * json).

(** Exceptions that escape to the caller. *)
Inductive exn : Type :=
| TypeError
| KeyError (key : string).

Inductive result (A : Type) : Type :=
| Ok (a : A)
| Raise (e : exn).
Arguments Ok {A} a.
Arguments Raise {A} e.

Definition bind {A B} (r : result A) (k : A -> result B) : result B :=
  match r with
  | Ok a => k a
  | Raise e => Raise e
  end.

Module Notations.
  Declare Scope result_scope.
  Delimit Scope result_scope with result.
  Notation "x <- e ;; k" := (bind e (fun x => k))
    (at level 61, e at next level, right associativity) : result_scope.
End Notations.
Import Notations.
Local Open Scope result_scope.

(** [str(n)] for an [int]. *)
Definition str_of_int (n : Z) : string := NilZero.string_of_int (Z.to_int n).

(** [type(v).__name__] *)
Definition type_name (v : json) : string :=
  match v with
  | JNull => "NoneType"
  | JBool _ => "bool"
  | JInt _ => "int"
  | JFloat _ => "float"
  | JStr _ => "str"
  | JArr _ => "list"
  | JObj _ => "dict"
  end.

(** Truth value of [v], as tested by [not v] and [if v]. *)
Definition truthy (v : json) : bool :=
  match v with
  | JNull => false
  | JBool b => b
  | JInt n => negb (n =? 0)%Z
  | JFloat x => negb (Qnum x =? 0)%Z
  | JStr s => negb (String.length s =? 0)%nat
  | JArr l => negb (List.length l =? 0)%nat
  | JObj m => negb (List.length m =? 0)%nat
  end.

(** [d.get(k)]: [None] when the key is absent. *)
Fixpoint dict_get (d : dict) (k : string) : option json :=
  match d with
  | [] => None
  | (k', v) :: rest => if String.eqb k k' then Some v else dict_get rest k
  end.

(** [d.get(k, default)] *)
Definition dict_get_default (d : dict) (k : string) (default : json) : json :=
  match dict_get d k with
  | Some v => v
  | None => default
  end.

(** [k in d] for a dictionary [d]. *)
Definition dict_contains (k : string) (d : dict) : bool :=
  existsb (String.eqb k) (map fst d).

(** [d[k]] for a dictionary [d]. *)
Definition dict_subscript (d : dict) (k : string) : result json :=
  match dict_get d k with
  | Some v => Ok v
  | None => Raise (KeyError k)
  end.

(** [needle in hay] for two strings: substring test. *)
Fixpoint is_substring (needle hay : string) : bool :=
  String.prefix needle hay
  || match hay with
     | EmptyString => false
     | String _ rest => is_substring needle rest
     end.

Definition is_str (k : string) (v : json) : bool :=
  match v with
  | JStr s => String.eqb k s
  | _ => false
  end.

(** [k in v] for a string [k]: key membership in a dict, element membership
    in a list, substring test in a string, [TypeError] otherwise. *)
Definition contains (k : string) (v : json) : result bool :=
  match v with
  | JObj m => Ok (dict_contains k m)
  | JArr l => Ok (existsb (is_str k) l)
  | JStr s => Ok (is_substring k s)
  | _ => Raise TypeError
  end.

(** [v[k]] for a string [k]: only a dict accepts a string subscript. *)
Definition subscript (v : json) (k : string) : result json :=
  match v with
  | JObj m => dict_subscript m k
  | _ => Raise TypeError
  end.

(** [len(v)] *)
Definition len (v : json) : result Z :=
  match v with
  | JStr s => Ok (Z.of_nat (String.length s))
  | JArr l => Ok (Z.of_nat (List.length l))
  | JObj m => Ok (Z.of_nat (List.length m))
  | _ => Raise TypeError
  end.

(** The elements [for x in v] runs through: the characters of a string, the
    elements of a list, the keys of a dict. *)
Definition iter (v : json) : result (list json) :=
  match v with
  | JStr s => Ok (map (fun c => JStr (String c EmptyString)) (list_ascii_of_string s))
  | JArr l => Ok l
  | JObj m => Ok (map (fun kv => JStr (fst kv)) m)
  | _ => Raise TypeError
  end.

End Py.
Import Py Py.Notations.
Local Open Scope result_scope.

(** ** [validate_invoice_schema] *)

Definition required_fields : list string :=
  ["invoice_id"; "business_info"; "transaction_date"; "items"; "summary"].
Definition required_item_fields : list string :=
  ["description"; "quantity"; "unit_price"; "tax_rate"].
Definition required_summary_fields : list string :=
  ["subtotal"; "tax_amount"; "total_amount"; "currency"].

(** [for field in fields: if field not in v: return ...]: the field the loop
    returns at, [None] when it runs to its end. *)
Fixpoint first_missing (fields : list string) (v : json) : result (option string) :=
  match fields with
  | [] => Ok None
  | field :: rest =>
      present <- contains field v ;;
      if present then first_missing rest v else Ok (Some field)
  end.

(** [for i, item in enumerate(items): for field in required_item_fields: ...],
    started at index [i]. *)
Fixpoint first_missing_item_field (i : Z) (items : list json)
  : result (option (Z * string)) :=
  match items with
  | [] => Ok None
  | item :: rest =>
      missing <- first_missing required_item_fields item ;;
      match missing with
      | Some field => Ok (Some (i, field))
      | None => first_missing_item_field (i + 1) rest
      end
  end.

(** ["k" not in v or not v["k"]] *)
Definition missing_or_falsy (k : string) (v : json) : result bool :=
  present <- contains k v ;;
  if negb present then Ok true
  else (x <- subscript v k ;; Ok (negb (truthy x))).

(** [not items or len(items) == 0] *)
Definition no_items (items : json) : result bool :=
  if negb (truthy items) then Ok true
  else (n <- len items ;; Ok (n =? 0)%Z).

Definition validate_invoice_schema (invoice_data : dict) : result (bool * string) :=
  missing <- first_missing required_fields (JObj invoice_data) ;;
  match missing with
  | Some field => Ok (false, "Missing required field: " ++ field)
  | None =>
  business_info <- dict_subscript invoice_data "business_info" ;;
  no_tin <- missing_or_falsy "tin" business_info ;;
  if no_tin then Ok (false, "Missing TIN in business_info") else
  no_name <- missing_or_falsy "business_name" business_info ;;
  if no_name then Ok (false, "Missing business_name in business_info") else
  items <- dict_subscript invoice_data "items" ;;
  empty <- no_items items ;;
  if empty then Ok (false, "Invoice must contain at least one item") else
  elements <- iter items ;;
  missing <- first_missing_item_field 0 elements ;;
  match missing with
  | Some (i, field) =>
      Ok (false, "Item " ++ str_of_int i ++ " missing required field: " ++ field)
  | None =>
  summary <- dict_subscript invoice_data "summary" ;;
  missing <- first_missing required_summary_fields summary ;;
  match missing with
  | Some field => Ok (false, "Summary missing required field: " ++ field)
  | None => Ok (true, "Validation successful")
  end end end.

(** The sample invoice of the module's self-test. *)
Definition sample_invoice : dict :=
  [ ("invoice_id", JStr "MPEPO-INV-2025-00123");
    ("business_info", JObj [ ("tin", JStr "BUS-123456789");
                             ("business_name", JStr "Mpepo Kitchen");
                             ("address", JStr "123 Restaurant Street, Nairobi") ]);
    ("customer_info", JObj [ ("tin", JStr "CUST-987654321");
                             ("customer_type", JStr "individual") ]);
    ("transaction_date", JStr "2025-09-23T14:30:00Z");
    ("items", JArr [ JObj [ ("item_id", JStr "MEAL-001");
                            ("description", JStr "Chicken Meal with Fries");
                            ("quantity", JInt 2);
                            ("unit_price", JFloat (15 # 1));
                            ("tax_rate", JFloat (4 # 25)) ] ]);
    ("summary", JObj [ ("subtotal", JFloat (30 # 1));
                       ("tax_amount", JFloat (24 # 5));
                       ("discount_amount", JFloat (0 # 1));
                       ("total_amount", JFloat (174 # 5));
                       ("currency", JStr "KES") ]) ].

(** ** Outcomes *)

Inductive SubmissionStatus : Type := SUCCESS | FAILED | PENDING | UNDER_REVIEW.

Definition value (s : SubmissionStatus) : string :=
  match s with
  | SUCCESS => "success"
  | FAILED => "failed"
  | PENDING => "pending"
  | UNDER_REVIEW => "under_review"
  end.

(** The result dictionaries the client builds.  A key the dictionary lacks is
    [None].  The retry loop stores every attempt's dictionary and lets
    [all_attempts] point at them, so that entry is a list of addresses into
    the store of [retry_result] below and not a list of copies. *)
Record outcome : Type := {
  success : bool;
  status : json;
  error : option string;
  message : json;
  data : option json;
  tax_authority_id : option json;
  submitted_at : option string;
  attempt_number : option Z;
  total_attempts : option Z;
  all_attempts : option (list nat)
}.

(** [{"success": False, "status": FAILED.value, "error": e, "message": m}] *)
Definition failure (e m : string) : outcome :=
  {| success := false; status := JStr (value FAILED); error := Some e;
     message := JStr m; data := None; tax_authority_id := None;
     submitted_at := None; attempt_number := None; total_attempts := None;
     all_attempts := None |}.

(** [result["attempt_number"] = n] *)
Definition set_attempt_number (n : Z) (o : outcome) : outcome :=
  {| success := success o; status := status o; error := error o;
     message := message o; data := data o;
     tax_authority_id := tax_authority_id o; submitted_at := submitted_at o;
     attempt_number := Some n; total_attempts := total_attempts o;
     all_attempts := all_attempts o |}.

(** [result["total_attempts"] = n; result["all_attempts"] = attempts] *)
Definition set_totals (n : Z) (attempts : list nat) (o : outcome) : outcome :=
  {| success := success o; status := status o; error := error o;
     message := message o; data := data o;
     tax_authority_id := tax_authority_id o; submitted_at := submitted_at o;
     attempt_number := attempt_number o; total_attempts := Some n;
     all_attempts := Some attempts |}.

(** ** The outside world *)

Record client : Type := { base_url : string; api_key : option string }.

(** A response of the transport: [status_code], the [content-type] header
    when there is one, and what [response.json()] gives, [None] standing for
    a [JSONDecodeError]. *)
Record response : Type := {
  status_code : Z;
  content_type : option string;
  json_body : option json
}.

(** What a call of [session.post] does: it returns a response, or raises
    [requests.exceptions.Timeout], [requests.exceptions.ConnectionError] or
    another exception [e], of which [str(e)] is kept. *)
Inductive post_result : Type :=
| Responded (r : response)
| Timeout
| ConnectionError
| OtherException (description : string).

(** The calls to the collaborators: [session.post(url, json=body,
    timeout=timeout)], [response.json()] and [time.sleep(seconds)]. *)
Inductive event : Type :=
| EvPost (url : string) (body : dict) (timeout : Z)
| EvJson
| EvSleep (seconds : Z).

(** [posts] counts the requests sent so far, [trace] lists the calls to the
    external collaborators in the order they were made. *)
Record world : Type := { posts : nat; trace : list event }.

Definition M (A : Type) : Type := world -> result A * world.

Definition ret {A} (a : A) : M A := fun w => (Ok a, w).

Definition lift {A} (r : result A) : M A := fun w => (r, w).

Definition mbind {A B} (m : M A) (k : A -> M B) : M B :=
  fun w =>
    match m w with
    | (Ok a, w') => k a w'
    | (Raise e, w') => (Raise e, w')
    end.

Notation "'let*' x ':=' e 'in' k" := (mbind e (fun x => k))
  (at level 10, x name, e at level 200, k at level 200).

Definition emit (e : event) (w : world) : world :=
  {| posts := posts w; trace := (trace w ++ [e])%list |}.

(** [time.sleep(seconds)] *)
Definition sleep (seconds : Z) : M unit :=
  fun w => (Ok tt, emit (EvSleep seconds) w).

Section Client.

(** [str(v)] for a value that is not a string, as an f-string prints it. *)
Variable repr : json -> string.
(** What the [k]-th call of [session.post] does, counting from 0. *)
Variable net : nat -> post_result.
(** [time.strftime("%Y-%m-%d %H:%M:%S")] read once [k] requests were sent. *)
Variable now : nat -> string.

(** [f"{v}"] *)
Definition format (v : json) : string :=
  match v with
  | JStr s => s
  | _ => repr v
  end.

Definition session_post (url : string) (body : dict) (timeout : Z) : M post_result :=
  fun w => (Ok (net (posts w)),
            {| posts := S (posts w);
               trace := (trace w ++ [EvPost url body timeout])%list |}).

Definition response_json (r : response) : M (option json) :=
  fun w => (Ok (json_body r), emit EvJson w).

Definition strftime : M string := fun w => (Ok (now (posts w)), w).

(** [response.headers.get('content-type', '').startswith('application/json')] *)
Definition is_json (r : response) : bool :=
  String.prefix "application/json"
    (match content_type r with Some t => t | None => "" end).

(** The outcome of the [except Exception as e] handler. *)
Definition unexpected (description : string) : outcome :=
  failure "unexpected_error" ("Unexpected error occurred: " ++ description).

(** [str(e)] of the [AttributeError] that [result.get] raises when the body
    is valid JSON but not an object. *)
Definition no_get (v : json) : string :=
  "'" ++ type_name v ++ "' object has no attribute 'get'".

(** The validator runs before the [try] block, so what it raises escapes.
    Inside the block every exception has a handler: the branches [Timeout],
    [ConnectionError] and [OtherException] are the handlers of what
    [session.post] raises, a body that does not parse goes to the handler
    of [json.JSONDecodeError], and a parsed body that is no object makes
    [result.get] raise [AttributeError], caught by [except Exception]. *)
Definition submit_invoice (self : client) (invoice_data : dict) : M outcome :=
  let* checked := lift (validate_invoice_schema invoice_data) in
  let '(is_valid, error_msg) := checked in
  if negb is_valid then ret (failure "invalid_schema" error_msg)
  else
  let* answer := session_post (base_url self ++ "/submit-invoice") invoice_data 10 in
  match answer with
  | Responded response =>
      if is_json response then
        let* parsed := response_json response in
        match parsed with
        | None =>
            ret (failure "invalid_json" "Tax authority returned invalid JSON response")
        | Some result =>
            if (status_code response =? 200)%Z then
              match result with
              | JObj fields =>
                  let authority_id :=
                    dict_get_default fields "tax_authority_id" (JStr "Unknown") in
                  let status := dict_get_default fields "status" (JStr "approved") in
                  let* stamp := strftime in
                  ret {| success := true;
                         status := status;
                         error := None;
                         message := dict_get_default fields "message"
                           (JStr "Invoice submitted successfully to tax authority");
                         data := Some result;
                         tax_authority_id := Some authority_id;
                         submitted_at := Some stamp;
                         attempt_number := None;
                         total_attempts := None;
                         all_attempts := None |}
              | _ => ret (unexpected (no_get result))
              end
            else if (status_code response =? 400)%Z then
              match result with
              | JObj fields =>
                  let error_detail :=
                    dict_get_default fields "error" (JStr "Validation error") in
                  ret (failure "validation_error"
                         ("Tax authority validation failed: " ++ format error_detail))
              | _ => ret (unexpected (no_get result))
              end
            else
              ret (failure ("http_error_" ++ str_of_int (status_code response))
                     ("Tax authority returned error: "
                      ++ str_of_int (status_code response)))
        end
      else
        ret (failure "invalid_response"
               ("Server returned non-JSON response: "
                ++ str_of_int (status_code response)))
  | Timeout => ret (failure "timeout" "Tax authority server timeout")
  | ConnectionError =>
      ret (failure "connection_error" "Cannot connect to tax authority service")
  | OtherException description => ret (unexpected description)
  end.

(** ** [submit_invoice_with_retry] *)

Definition non_retryable_errors : list string :=
  ["invalid_schema"; "validation_error"; "invalid_json"].

(** [result.get("error") in non_retryable_errors] *)
Definition non_retryable (o : outcome) : bool :=
  match error o with
  | Some e => existsb (String.eqb e) non_retryable_errors
  | None => false
  end.

(** What the retry loop hands back: the dictionaries it created, by address,
    and the address of the one it returns. *)
Record retry_result : Type := { store : list outcome; returned : nat }.

(** The dictionary built after the loop. *)
Definition all_retries_failed (max_retries : Z) (attempts : list nat) : outcome :=
  {| success := false; status := JStr (value FAILED);
     error := Some "all_retries_failed";
     message := JStr ("All " ++ str_of_int max_retries ++ " retry attempts failed");
     data := None; tax_authority_id := None; submitted_at := None;
     attempt_number := None;
     total_attempts := Some max_retries;
     all_attempts := Some attempts |}.

(** The body of [for attempt in range(max_retries)], run over the indices
    still to come.  [attempts] holds the dictionaries appended so far, the
    one at position [k] being the dictionary of address [k]; the Python list
    [attempts] is the list of these addresses.  [result] is appended before
    it is given [total_attempts] and [all_attempts], so the returned
    dictionary is the last element of its own [all_attempts]. *)
Fixpoint retry_loop (self : client) (invoice_data : dict) (max_retries : Z)
    (range : list nat) (attempts : list outcome) : M retry_result :=
  match range with
  | [] =>
      ret {| store := (attempts
                       ++ [all_retries_failed max_retries (seq 0 (List.length attempts))])%list;
             returned := List.length attempts |}
  | attempt :: rest =>
      let* fresh := submit_invoice self invoice_data in
      let result := set_attempt_number (Z.of_nat attempt + 1) fresh in
      let address := List.length attempts in
      let stop :=
        {| store := (attempts
                     ++ [set_totals (Z.of_nat attempt + 1) (seq 0 (S address)) result])%list;
           returned := address |} in
      if success result then ret stop
      else if non_retryable result then ret stop
      else
        let* _ := (if (Z.of_nat attempt <? max_retries - 1)%Z
                   then sleep (2 ^ Z.of_nat attempt)
                   else ret tt) in
        retry_loop self invoice_data max_retries rest (attempts ++ [result])%list
  end.

Definition submit_invoice_with_retry (self : client) (invoice_data : dict)
    (max_retries : Z) : M retry_result :=
  retry_loop self invoice_data max_retries (seq 0 (Z.to_nat max_retries)) [].

End Client.

(** The dictionary a retry run returns. *)
Definition returned_outcome (r : retry_result) : option outcome :=
  nth_error (store r) (returned r).

(** What [submit_invoice] returns when it is called once [k] requests have
    been sent. *)
Definition attempt_outcome (repr : json -> string) (net : nat -> post_result)
    (now : nat -> string) (self : client) (invoice_data : dict) (k : nat)
  : result outcome :=
  fst (submit_invoice repr net now self invoice_data {| posts := k; trace := [] |}).

(** The world that call leaves, started from an empty trace. *)
Definition attempt_world (repr : json -> string) (net : nat -> post_result)
    (now : nat -> string) (self : client) (invoice_data : dict) (k : nat)
  : world :=
  snd (submit_invoice repr net now self invoice_data {| posts := k; trace := [] |}).

(** The world one attempt leaves behind when it starts in [w]. *)
Definition after_attempt (repr : json -> string) (net : nat -> post_result)
    (now : nat -> string) (self : client) (invoice_data : dict) (w : world)
  : world :=
  {| posts := posts (attempt_world repr net now self invoice_data (posts w));
     trace := (trace w
               ++ trace (attempt_world repr net now self invoice_data (posts w)))%list |}.

(** The world before the next attempt: the delay is slept unless the attempt
    of index [a] was the last one. *)
Definition rested_world (repr : json -> string) (net : nat -> post_result)
    (now : nat -> string) (self : client) (invoice_data : dict)
    (max_retries : Z) (a : nat) (w : world) : world :=
  if (Z.of_nat a <? max_retries - 1)%Z
  then emit (EvSleep (2 ^ Z.of_nat a)) (after_attempt repr net now self invoice_data w)
  else after_attempt repr net now self invoice_data w.

(** The events a run appended to the trace it started from. *)
Definition appended (before after : world) : list event :=
  skipn (List.length (trace before)) (trace after).

(** Requests and delays of a trace, in order. *)
Inductive tick : Type :=
| Request
| Delay (seconds : Z).

Definition timeline (t : list event) : list tick :=
  flat_map (fun e => match e with
                     | EvPost _ _ _ => [Request]
                     | EvSleep seconds => [Delay seconds]
                     | EvJson => []
                     end) t.

Definition delays (t : list event) : list Z :=
  flat_map (fun e => match e with
                     | EvSleep seconds => [seconds]
                     | _ => []
                     end) t.

(** The delay slept after the attempt of 0-based index [i]. *)
Definition backoff (i : nat) : Z := 2 ^ Z.of_nat i.

(** [n] attempts, the first with 0-based index [i]: a request, then for each
    further attempt the delay of the attempt before it and a request. *)
Definition schedule_from (i n : nat) : list tick :=
  Request :: flat_map (fun k => [Delay (backoff k); Request]) (seq i (n - 1)).

Definition schedule (n : nat) : list tick := schedule_from 0 n.

(** An attempt the loop goes on from: [submit_invoice] returned, without
    success and with an error outside [non_retryable_errors]. *)
Definition retryable_failure (x : result outcome) : Prop :=
  exists o, x = Ok o /\ success o = false /\ non_retryable o = false.

(** ** The validator's checks as the specification lists them

    Every check is a total boolean test on the document together with the
    message of its failure; the checks are laid out in the order of section
    4.1 and the verdict is the first check that fails. *)

(** The key lists, in the order the specification gives them. *)
Definition top_level_keys : list string :=
  ["invoice_id"; "business_info"; "transaction_date"; "items"; "summary"].
Definition item_keys : list string :=
  ["description"; "quantity"; "unit_price"; "tax_rate"].
Definition summary_keys : list string :=
  ["subtotal"; "tax_amount"; "total_amount"; "currency"].

Definition present (o : option json) : bool :=
  match o with
  | Some _ => true
  | None => false
  end.

Definition present_and_truthy (o : option json) : bool :=
  match o with
  | Some v => truthy v
  | None => false
  end.

(** Field [k] of an object, nothing for any other value. *)
Definition field_of (o : option json) (k : string) : option json :=
  match o with
  | Some (JObj m) => dict_get m k
  | _ => None
  end.

(** The line items of a sequence, none for any other value. *)
Definition items_of (o : option json) : list json :=
  match o with
  | Some (JArr l) => l
  | _ => []
  end.

Definition enumerate_from (i : nat) (l : list json) : list (Z * json) :=
  combine (map Z.of_nat (seq i (List.length l))) l.

Definition item_message (i : Z) (k : string) : string :=
  "Item " ++ str_of_int i ++ " missing required field: " ++ k.

Definition item_checks (i : nat) (l : list json) : list (bool * string) :=
  flat_map
    (fun entry =>
       map (fun k => (present (field_of (Some (snd entry)) k),
                      item_message (fst entry) k))
           item_keys)
    (enumerate_from i l).

Definition schema_checks (d : dict) : list (bool * string) :=
  let top_level :=
    map (fun k => (present (dict_get d k), "Missing required field: " ++ k))
        top_level_keys in
  let business :=
    [ (present_and_truthy (field_of (dict_get d "business_info") "tin"),
       "Missing TIN in business_info");
      (present_and_truthy (field_of (dict_get d "business_info") "business_name"),
       "Missing business_name in business_info") ] in
  let some_item :=
    [ (negb (List.length (items_of (dict_get d "items")) =? 0)%nat,
       "Invoice must contain at least one item") ] in
  let per_item := item_checks 0 (items_of (dict_get d "items")) in
  let summary :=
    map (fun k => (present (field_of (dict_get d "summary") k),
                   "Summary missing required field: " ++ k))
        summary_keys in
  (top_level ++ business ++ some_item ++ per_item ++ summary)%list.

Definition failing (c : bool * string) : bool := negb (fst c).

Definition first_failure (checks : list (bool * string)) : bool * string :=
  match find failing checks with
  | Some c => (false, snd c)
  | None => (true, "Validation successful")
  end.

(** The validator decides document [d] as the list of checks does. *)
Definition follows_checks (d : dict) : Prop :=
  validate_invoice_schema d = Ok (first_failure (schema_checks d)).

Definition is_object (v : json) : bool :=
  match v with
  | JObj _ => true
  | _ => false
  end.

(** The nested values have the types of the data model: [business_info] and
    [summary], where present, are objects and [items], where present, is a
    list of objects. *)
Definition well_shaped (d : dict) : bool :=
  match dict_get d "business_info" with
  | Some v => is_object v
  | None => true
  end
  && match dict_get d "items" with
     | Some (JArr l) => forallb is_object l
     | Some _ => false
     | None => true
     end
  && match dict_get d "summary" with
     | Some v => is_object v
     | None => true
     end.

(** What [status] holds in fact, for the outcome of the call that sent
    request number [k]: the value of [FAILED] on a failure, and on a success
    the [status] field of the body of the response to that request,
    ["approved"] when the body has none. *)
Definition status_rule (net : nat -> post_result) (k : nat) (o : outcome) : Prop :=
  (success o = false -> status o = JStr (value FAILED)) /\
  (success o = true ->
   exists r fields,
     net k = Responded r /\ json_body r = Some (JObj fields) /\
     status o = dict_get_default fields "status" (JStr "approved")).

(** [status] is one of the values of [SubmissionStatus]. *)
Definition status_in_enum (o : outcome) : Prop :=
  exists s : SubmissionStatus, status o = JStr (value s).

(** [d.get(k, default)] on a parsed body, as the specification words it. *)
Definition field_or (body : json) (k : string) (default : json) : json :=
  match field_of (Some body) k with
  | Some v => v
  | None => default
  end.

(** Section 4.2, step 4, read for every answer with status 200 and a JSON
    content type. *)
Definition spec_ok_response (repr : json -> string) (net : nat -> post_result)
    (now : nat -> string) (self : client) (invoice_data : dict) (w : world) : Prop :=
  forall m r,
    validate_invoice_schema invoice_data = Ok (true, m) ->
    net (posts w) = Responded r ->
    status_code r = 200 ->
    is_json r = true ->
    exists o w' body sentence stamp,
      submit_invoice repr net now self invoice_data w = (Ok o, w') /\
      success o = true /\
      data o = Some body /\
      status o = field_or body "status" (JStr "approved") /\
      tax_authority_id o = Some (field_or body "tax_authority_id" (JStr "unknown")) /\
      message o = field_or body "message" (JStr sentence) /\
      submitted_at o = Some stamp.

(** Section 4.2, step 5, read for every answer with status 400 and a JSON
    content type. *)
Definition spec_bad_request (repr : json -> string) (net : nat -> post_result)
    (now : nat -> string) (self : client) (invoice_data : dict) (w : world) : Prop :=
  forall m r,
    validate_invoice_schema invoice_data = Ok (true, m) ->
    net (posts w) = Responded r ->
    status_code r = 400 ->
    is_json r = true ->
    exists o w' text,
      submit_invoice repr net now self invoice_data w = (Ok o, w') /\
      success o = false /\
      error o = Some "validation_error" /\
      status o = JStr "failed" /\
      message o = JStr text /\
      is_substring
        (format repr
           (match field_of (json_body r) "error" with
            | Some v => v
            | None => JStr "validation error"
            end))
        text = true.

(** ** Concrete documents, responses and environments *)

Definition kitchen : client :=
  {| base_url := "https://tax.example"; api_key := None |}.

Definition start : world := {| posts := 0; trace := [] |}.

Definition no_repr (v : json) : string := "<" ++ type_name v ++ ">".

Definition midnight (k : nat) : string := "2025-09-23 00:00:00".

(** [business_info] is a number. *)
Definition odd_invoice : dict :=
  [ ("invoice_id", JStr "INV-1");
    ("business_info", JInt 5);
    ("transaction_date", JStr "2025-09-23T14:30:00Z");
    ("items", JArr []);
    ("summary", JObj []) ].

(** No line items. *)
Definition empty_invoice : dict :=
  [ ("invoice_id", JStr "INV-2");
    ("business_info", JObj [ ("tin", JStr "BUS-1"); ("business_name", JStr "Mpepo") ]);
    ("transaction_date", JStr "2025-09-23T14:30:00Z");
    ("items", JArr []);
    ("summary", JObj []) ].

Definition json_response (code : Z) (body : option json) : response :=
  {| status_code := code; content_type := Some "application/json"; json_body := body |}.

Definition html_response (code : Z) : response :=
  {| status_code := code; content_type := Some "text/html"; json_body := None |}.

Definition always (a : post_result) (k : nat) : post_result := a.

Definition approved_body : dict :=
  [ ("tax_authority_id", JStr "TA-1"); ("status", JStr "approved") ].

Definition approved_response : response :=
  json_response 200 (Some (JObj approved_body)).

Definition bad_tin_body : dict := [ ("error", JStr "bad tin") ].

Definition bad_tin_response : response :=
  json_response 400 (Some (JObj bad_tin_body)).

Definition bad_tin_outcome : outcome :=
  failure "validation_error" "Tax authority validation failed: bad tin".

(** The second line item lacks [unit_price]. *)
Definition short_item_invoice : dict :=
  [ ("invoice_id", JStr "INV-3");
    ("business_info", JObj [ ("tin", JStr "BUS-1"); ("business_name", JStr "Mpepo") ]);
    ("transaction_date", JStr "2025-09-23T14:30:00Z");
    ("items", JArr [ JObj [ ("description", JStr "Tea"); ("quantity", JInt 1);
                            ("unit_price", JInt 2); ("tax_rate", JInt 0) ];
                     JObj [ ("description", JStr "Rice"); ("quantity", JInt 1);
                            ("tax_rate", JInt 0) ] ]);
    ("summary", JObj []) ].

(** The only line item is a string that spells the four field names. *)
Definition textual_item_invoice : dict :=
  [ ("invoice_id", JStr "INV-4");
    ("business_info", JObj [ ("tin", JStr "BUS-1"); ("business_name", JStr "Mpepo") ]);
    ("transaction_date", JStr "2025-09-23T14:30:00Z");
    ("items", JArr [ JStr "description quantity unit_price tax_rate" ]);
    ("summary", JObj [ ("subtotal", JInt 0); ("tax_amount", JInt 0);
                       ("total_amount", JInt 0); ("currency", JStr "KES") ]) ].

(** The first request times out, the second is approved. *)
Definition second_time_lucky (k : nat) : post_result :=
  match k with
  | O => Timeout
  | S _ => Responded approved_response
  end.

(** ** Further readings of the client's behaviour *)

(** Key [k] is absent from document [d]. *)
Definition missing_in (d : dict) (k : string) : bool :=
  negb (present (dict_get d k)).

(** A result that is not a [KeyError]. *)
Definition no_key_error {A} (r : result A) : Prop :=
  match r with
  | Raise (KeyError _) => False
  | _ => True
  end.

(** The sample invoice without [customer_info] and with its keys in another
    order. *)
Definition reordered_invoice : dict :=
  [ ("summary", JObj [ ("subtotal", JFloat (30 # 1));
                       ("tax_amount", JFloat (24 # 5));
                       ("discount_amount", JFloat (0 # 1));
                       ("total_amount", JFloat (174 # 5));
                       ("currency", JStr "KES") ]);
    ("items", JArr [ JObj [ ("item_id", JStr "MEAL-001");
                            ("description", JStr "Chicken Meal with Fries");
                            ("quantity", JInt 2);
                            ("unit_price", JFloat (15 # 1));
                            ("tax_rate", JFloat (4 # 25)) ] ]);
    ("transaction_date", JStr "2025-09-23T14:30:00Z");
    ("business_info", JObj [ ("tin", JStr "BUS-123456789");
                             ("business_name", JStr "Mpepo Kitchen");
                             ("address", JStr "123 Restaurant Street, Nairobi") ]);
    ("invoice_id", JStr "MPEPO-INV-2025-00123") ].

(** No [summary] and no [items]. *)
Definition headless_invoice : dict :=
  [ ("invoice_id", JStr "INV-5");
    ("business_info", JInt 5);
    ("transaction_date", JStr "2025-09-23T14:30:00Z") ].

(** The error tags that do not depend on the answer's status code. *)
Definition fixed_error_tags : list string :=
  ["invalid_schema"; "invalid_response"; "validation_error"; "timeout";
   "connection_error"; "invalid_json"; "unexpected_error"].

(** What the retry loop does after an attempt. *)
Inductive verdict : Type :=
| Succeeds
| GivesUp
| TriesAgain.

(** The verdict the loop reads off an outcome: [result["success"]] first,
    then [result.get("error") in non_retryable_errors]. *)
Definition outcome_verdict (o : outcome) : verdict :=
  if success o then Succeeds
  else if non_retryable o then GivesUp
  else TriesAgain.

(** The verdict as a function of what the transport did with the request. *)
Definition answer_verdict (a : post_result) : verdict :=
  match a with
  | Responded r =>
      if is_json r then
        match json_body r with
        | None => GivesUp
        | Some body =>
            if (status_code r =? 200)%Z then
              if is_object body then Succeeds else TriesAgain
            else if (status_code r =? 400)%Z then
              if is_object body then GivesUp else TriesAgain
            else TriesAgain
        end
      else TriesAgain
  | _ => TriesAgain
  end.

(** The events of one attempt on a valid invoice. *)
Definition attempt_events (net : nat -> post_result) (self : client)
    (invoice_data : dict) (k : nat) : list event :=
  EvPost (base_url self ++ "/submit-invoice") invoice_data 10
  :: match net k with
     | Responded r => if is_json r then [EvJson] else []
     | _ => []
     end.

(** The sum of a list of delays. *)
Definition total (l : list Z) : Z := fold_right Z.add 0 l.


(** ** The product API (product_module.py)

    The handlers of the FastAPI application, as functions on the state of
    the server.  A handler has no [await], so it runs from its first line to
    its last without another handler in between.  FastAPI has validated the
    request models before a handler is called; the handlers themselves build
    [Product] objects, which pydantic validates again.  [uuid.uuid4], the
    clock and [str.lower] are parameters. *)

Module Products.

(** [ProductBase], and [ProductCreate], which adds nothing to it.  A finite
    [float] is the rational it denotes. *)
Record ProductBase : Type := {
  name : string;
  price : Q;
  category : string;
  stock_quantity : Z
}.

Definition ProductCreate : Type := ProductBase.

(** [Product]: the fields of [ProductBase] and three more. *)
Record Product : Type := {
  base : ProductBase;
  id : string;
  created_at : string;
  updated_at : string
}.

(** A field of a request body: left out, or given, possibly as [null]. *)
Inductive provided (A : Type) : Type :=
| Unset
| Given (v : option A).
Arguments Unset {A}.
Arguments Given {A} v.

(** [ProductUpdate]: every field is optional and defaults to [None];
    [model_dump(exclude_unset=True)] keeps the fields that were given. *)
Module Update.
Record ProductUpdate : Type := {
  name : provided string;
  price : provided Q;
  category : provided string;
  stock_quantity : provided Z
}.
End Update.

(** The keyword arguments a [Product] is built from: the dictionary
    [model_dump()] gives, where an update may have put [None]. *)
Record item : Type := {
  item_name : option string;
  item_price : option Q;
  item_category : option string;
  item_stock_quantity : option Z;
  item_id : string;
  item_created_at : string;
  item_updated_at : string
}.

Inductive fault : Type :=
| HTTPException (status_code : Z) (detail : string)
| ValidationError
| MissingKey (key : string).

Inductive reply (A : Type) : Type :=
| Done (a : A)
| Failed (f : fault).
Arguments Done {A} a.
Arguments Failed {A} f.

(** The constraints of the fields: [min_length=3], [gt=0], [ge=0]. *)
Definition valid_name (s : string) : bool := (3 <=? String.length s)%nat.
Definition valid_price (q : Q) : bool := (0 <? Qnum q)%Z.
Definition valid_stock (n : Z) : bool := (0 <=? n)%Z.

Definition valid_base (p : ProductBase) : bool :=
  valid_name (name p) && valid_price (price p) && valid_stock (stock_quantity p).

(** What pydantic checks when a [ProductUpdate] is built: [gt=0] and [ge=0]
    on a value that is given and not [None]; a name of any length passes. *)
Definition valid_update (u : Update.ProductUpdate) : bool :=
  match Update.price u with
  | Given (Some q) => valid_price q
  | _ => true
  end
  && match Update.stock_quantity u with
     | Given (Some n) => valid_stock n
     | _ => true
     end.

(** [p.model_dump()] *)
Definition model_dump (p : Product) : item :=
  {| item_name := Some (name (base p));
     item_price := Some (price (base p));
     item_category := Some (category (base p));
     item_stock_quantity := Some (stock_quantity (base p));
     item_id := id p;
     item_created_at := created_at p;
     item_updated_at := updated_at p |}.

(** The constructor [Product], called on keyword arguments: every field
    must hold a value that meets its constraint. *)
Definition Product_init (i : item) : reply Product :=
  match item_name i, item_price i, item_category i, item_stock_quantity i with
  | Some n, Some q, Some c, Some k =>
      if valid_name n && valid_price q && valid_stock k
      then Done {| base := {| name := n; price := q; category := c;
                              stock_quantity := k |};
                   id := item_id i;
                   created_at := item_created_at i;
                   updated_at := item_updated_at i |}
      else Failed ValidationError
  | _, _, _, _ => Failed ValidationError
  end.

Definition pick {A} (p : provided A) (old : option A) : option A :=
  match p with
  | Unset => old
  | Given v => v
  end.

(** [updated_item = existing_data.copy(); updated_item.update(update_data)] *)
Definition apply_update (existing_data : item) (u : Update.ProductUpdate) : item :=
  {| item_name := pick (Update.name u) (item_name existing_data);
     item_price := pick (Update.price u) (item_price existing_data);
     item_category := pick (Update.category u) (item_category existing_data);
     item_stock_quantity :=
       pick (Update.stock_quantity u) (item_stock_quantity existing_data);
     item_id := item_id existing_data;
     item_created_at := item_created_at existing_data;
     item_updated_at := item_updated_at existing_data |}.

(** [updated_item['updated_at'] = stamp] *)
Definition set_updated_at (stamp : string) (i : item) : item :=
  {| item_name := item_name i; item_price := item_price i;
     item_category := item_category i;
     item_stock_quantity := item_stock_quantity i;
     item_id := item_id i; item_created_at := item_created_at i;
     item_updated_at := stamp |}.

(** [products_db]: a Python [dict], which keeps its keys in the order of
    their first insertion. *)
Definition db : Type := list (string * Product).

Fixpoint db_get (d : db) (k : string) : option Product :=
  match d with
  | [] => None
  | (k', p) :: rest => if String.eqb k k' then Some p else db_get rest k
  end.

(** [k in d] *)
Definition db_contains (k : string) (d : db) : bool :=
  match db_get d k with
  | Some _ => true
  | None => false
  end.

(** [d[k] = p]: the value of an existing key is replaced where it stands, a
    new key goes to the end. *)
Fixpoint db_set (d : db) (k : string) (p : Product) : db :=
  match d with
  | [] => [(k, p)]
  | (k', p') :: rest =>
      if String.eqb k k' then (k', p) :: rest else (k', p') :: db_set rest k p
  end.

(** [del d[k]] *)
Fixpoint db_del (d : db) (k : string) : db :=
  match d with
  | [] => []
  | (k', p') :: rest =>
      if String.eqb k k' then rest else (k', p') :: db_del rest k
  end.

(** [list(d.values())] *)
Definition values (d : db) : list Product := map snd d.

(** The state of the server: the table, and how often [uuid.uuid4] and the
    clock have been called. *)
Record server : Type := {
  products_db : db;
  uuid_calls : nat;
  clock_calls : nat
}.

Definition handler (A : Type) : Type := server -> reply A * server.

Definition answer {A} (a : A) : handler A := fun s => (Done a, s).

Definition raise {A} (f : fault) : handler A := fun s => (Failed f, s).

Definition lift_reply {A} (r : reply A) : handler A := fun s => (r, s).

Definition hbind {A B} (m : handler A) (k : A -> handler B) : handler B :=
  fun s =>
    match m s with
    | (Done a, s') => k a s'
    | (Failed f, s') => (Failed f, s')
    end.

Notation "'let!' x ':=' e 'in' k" := (hbind e (fun x => k))
  (at level 10, x name, e at level 200, k at level 200).

(** [products_db[k]] *)
Definition lookup (k : string) : handler Product :=
  fun s =>
    match db_get (products_db s) k with
    | Some p => (Done p, s)
    | None => (Failed (MissingKey k), s)
    end.

(** [products_db[k] = p] *)
Definition put (k : string) (p : Product) : handler unit :=
  fun s => (Done tt, {| products_db := db_set (products_db s) k p;
                        uuid_calls := uuid_calls s;
                        clock_calls := clock_calls s |}).

(** [del products_db[k]] *)
Definition delete_key (k : string) : handler unit :=
  fun s => (Done tt, {| products_db := db_del (products_db s) k;
                        uuid_calls := uuid_calls s;
                        clock_calls := clock_calls s |}).

(** [products_db.clear()] *)
Definition clear : handler unit :=
  fun s => (Done tt, {| products_db := [];
                        uuid_calls := uuid_calls s;
                        clock_calls := clock_calls s |}).

Definition not_found {A} : handler A := raise (HTTPException 404 "Product not found").

Section Handlers.

(** [str(uuid.uuid4())] at its [n]-th call, from 0. *)
Variable uuid4 : nat -> string.
(** [datetime.datetime.now(datetime.UTC).isoformat()] at the [n]-th reading
    of the clock. *)
Variable utcnow : nat -> string.
(** [str.lower] *)
Variable lower : string -> string.

Definition new_id : handler string :=
  fun s => (Done (uuid4 (uuid_calls s)),
            {| products_db := products_db s;
               uuid_calls := S (uuid_calls s);
               clock_calls := clock_calls s |}).

Definition get_iso_now : handler string :=
  fun s => (Done (utcnow (clock_calls s)),
            {| products_db := products_db s;
               uuid_calls := uuid_calls s;
               clock_calls := S (clock_calls s) |}).

(** The keyword arguments [id=product_id, created_at=now_iso,
    updated_at=now_iso] and those of [product.model_dump()]. *)
Definition new_product_item (product_id now_iso : string) (product : ProductCreate)
  : item :=
  {| item_name := Some (name product);
     item_price := Some (price product);
     item_category := Some (category product);
     item_stock_quantity := Some (stock_quantity product);
     item_id := product_id;
     item_created_at := now_iso;
     item_updated_at := now_iso |}.

Definition create_product (product : ProductCreate) : handler Product :=
  let! product_id := new_id in
  let! now_iso := get_iso_now in
  let! new_product :=
    lift_reply (Product_init (new_product_item product_id now_iso product)) in
  let! _ := put product_id new_product in
  answer new_product.

(** [if category:] holds for a string that is given and not empty. *)
Definition read_all_products (category_filter : option string) : handler (list Product) :=
  fun s =>
    let products_list := values (products_db s) in
    match category_filter with
    | Some c =>
        if negb (String.length c =? 0)%nat
        then (Done (filter (fun p => String.eqb (lower (category (base p))) (lower c))
                      products_list), s)
        else (Done products_list, s)
    | None => (Done products_list, s)
    end.

Definition read_product_by_id (product_id : string) : handler Product :=
  fun s =>
    if negb (db_contains product_id (products_db s)) then not_found s
    else lookup product_id s.

Definition update_product (product_id : string)
    (product_update : Update.ProductUpdate) : handler Product :=
  fun s =>
    if negb (db_contains product_id (products_db s)) then not_found s
    else
      (let! existing_product := lookup product_id in
       let existing_data := model_dump existing_product in
       let updated_item := apply_update existing_data product_update in
       let! stamp := get_iso_now in
       let updated_item := set_updated_at stamp updated_item in
       let! rebuilt := lift_reply (Product_init updated_item) in
       let! _ := put product_id rebuilt in
       lookup product_id) s.

Definition delete_product (product_id : string) : handler string :=
  fun s =>
    if negb (db_contains product_id (products_db s)) then not_found s
    else
      (let! _ := delete_key product_id in
       answer "Product deleted successfully") s.

(** [{"product_count": len(products_db), "data": products_db}] *)
Definition get_db_status : handler (Z * db) :=
  fun s => (Done (Z.of_nat (List.length (products_db s)), products_db s), s).

Definition products_to_add : list ProductCreate :=
  [ {| name := "Jollof Rice"; price := 180 # 1; category := "Main Course";
       stock_quantity := 50 |};
    {| name := "Mandazi"; price := 50 # 1; category := "Snack";
       stock_quantity := 200 |};
    {| name := "Chapati"; price := 40 # 1; category := "Side Dish";
       stock_quantity := 75 |} ].

(** [for product_data in products: ...] of [seed_data]. *)
Fixpoint seed_each (now_iso : string) (products : list ProductCreate) : handler unit :=
  match products with
  | [] => answer tt
  | product_data :: rest =>
      let! product_id := new_id in
      let! seeded :=
        lift_reply (Product_init (new_product_item product_id now_iso product_data)) in
      let! _ := put product_id seeded in
      seed_each now_iso rest
  end.

Definition seed_data : handler string :=
  let! _ := clear in
  let! now_iso := get_iso_now in
  let! _ := seed_each now_iso products_to_add in
  answer (str_of_int (Z.of_nat (List.length products_to_add))
       ++ " products seeded successfully.").

End Handlers.

(** What the table keeps: no key twice, every product under its own [id],
    every product within the constraints of its fields. *)
Definition db_ok (d : db) : Prop :=
  NoDup (map fst d) /\
  Forall (fun entry => id (snd entry) = fst entry /\ valid_base (base (snd entry)) = true) d.

(** [str.lower] on strings of ASCII letters. *)
Definition ascii_lower (s : string) : string :=
  string_of_list_ascii
    (map (fun c =>
            let n := nat_of_ascii c in
            if ((65 <=? n) && (n <=? 90))%nat then ascii_of_nat (n + 32) else c)
       (list_ascii_of_string s)).

(** The update makes the rebuilt [Product] break a constraint: a field is
    given as [None], or given a value its constraint refuses. *)
Definition rebuild_fails (u : Update.ProductUpdate) : bool :=
  match Update.name u with
  | Unset => false
  | Given None => true
  | Given (Some n) => negb (valid_name n)
  end
  || match Update.price u with
     | Unset => false
     | Given None => true
     | Given (Some q) => negb (valid_price q)
     end
  || match Update.category u with
     | Given None => true
     | _ => false
     end
  || match Update.stock_quantity u with
     | Unset => false
     | Given None => true
     | Given (Some k) => negb (valid_stock k)
     end.

(** The product an accepted update leaves. *)
Definition updated (old : Product) (u : Update.ProductUpdate) (stamp : string)
  : Product :=
  {| base :=
       {| name := match Update.name u with
                  | Given (Some n) => n
                  | _ => name (base old)
                  end;
          price := match Update.price u with
                   | Given (Some q) => q
                   | _ => price (base old)
                   end;
          category := match Update.category u with
                      | Given (Some c) => c
                      | _ => category (base old)
                      end;
          stock_quantity := match Update.stock_quantity u with
                            | Given (Some k) => k
                            | _ => stock_quantity (base old)
                            end |};
     id := id old;
     created_at := created_at old;
     updated_at := stamp |}.

(** The product [seed_data] and [create_product] build from [product]. *)
Definition stamped (product_id now_iso : string) (product : ProductCreate) : Product :=
  {| base := product; id := product_id;
     created_at := now_iso; updated_at := now_iso |}.

Definition numbered_id (n : nat) : string := "id-" ++ str_of_int (Z.of_nat n).

Definition reading (n : nat) : string := "t" ++ str_of_int (Z.of_nat n).

Definition empty_server : server :=
  {| products_db := []; uuid_calls := 0; clock_calls := 0 |}.

Definition biryani : ProductCreate :=
  {| name := "Chicken Biryani"; price := 150 # 1; category := "Main Course";
     stock_quantity := 100 |}.

(** The server after one product was created in the empty one. *)
Definition one_product_server : server :=
  snd (create_product numbered_id reading biryani empty_server).

Definition mandazi : ProductCreate :=
  {| name := "Mandazi"; price := 50 # 1; category := "Snack";
     stock_quantity := 200 |}.

(** The server after the biryani and the mandazi were created. *)
Definition two_product_server : server :=
  snd (create_product numbered_id reading mandazi one_product_server).

Definition nothing_given : Update.ProductUpdate :=
  {| Update.name := Unset; Update.price := Unset; Update.category := Unset;
     Update.stock_quantity := Unset |}.

(** A request body ["name": "ab"]. *)
Definition short_name_update : Update.ProductUpdate :=
  {| Update.name := Given (Some "ab"); Update.price := Unset;
     Update.category := Unset; Update.stock_quantity := Unset |}.

(** A request body ["price": 175, "stock_quantity": 0]. *)
Definition price_update : Update.ProductUpdate :=
  {| Update.name := Unset; Update.price := Given (Some (175 # 1));
     Update.category := Unset; Update.stock_quantity := Given (Some 0%Z) |}.

End Products.

(** ** The definitions at work *)

Example validate_sample_invoice :
  validate_invoice_schema sample_invoice = Ok (true, "Validation successful").
Proof. reflexivity. Qed.

Example validate_short_item :
  validate_invoice_schema short_item_invoice
  = Ok (false, "Item 1 missing required field: unit_price").
Proof. reflexivity. Qed.

(** [field not in item] is a substring test when [item] is a string. *)
Example validate_textual_item :
  validate_invoice_schema textual_item_invoice = Ok (true, "Validation successful").
Proof. reflexivity. Qed.

Example submit_timeout :
  fst (submit_invoice no_repr (always Timeout) midnight kitchen sample_invoice start)
  = Ok (failure "timeout" "Tax authority server timeout").
Proof. reflexivity. Qed.

Example submit_server_error :
  fst (submit_invoice no_repr (always (Responded (json_response 503 (Some JNull))))
         midnight kitchen sample_invoice start)
  = Ok (failure "http_error_503" "Tax authority returned error: 503").
Proof. reflexivity. Qed.

Example submit_list_body :
  fst (submit_invoice no_repr (always (Responded (json_response 200 (Some (JArr [])))))
         midnight kitchen sample_invoice start)
  = Ok (failure "unexpected_error"
          "Unexpected error occurred: 'list' object has no attribute 'get'").
Proof. reflexivity. Qed.

(** A success at the second attempt: one delay of 1, and the returned
    dictionary, stored at address 1, lists itself in [all_attempts]. *)
Example retry_second_time_lucky :
  let run := submit_invoice_with_retry no_repr second_time_lucky midnight kitchen
               sample_invoice 3 start in
  timeline (trace (snd run)) = [Request; Delay 1; Request] /\
  exists r final,
    fst run = Ok r /\
    returned r = 1%nat /\
    returned_outcome r = Some final /\
    success final = true /\
    attempt_number final = Some 2 /\
    total_attempts final = Some 2 /\
    all_attempts final = Some [0%nat; 1%nat].
Proof.
  split; [vm_compute; reflexivity|].
  eexists _, _. split; [vm_compute; reflexivity|]. repeat split.
Qed.

(** ** Dictionaries and lists *)

Lemma dict_contains_get (k : string) (d : dict) :
  dict_contains k d = present (dict_get d k).
Proof.
  unfold dict_contains.
  induction d as [|[k' v] d IH]; simpl; [reflexivity|].
  destruct (String.eqb k k'); simpl; [reflexivity | exact IH].
Qed.

Lemma find_app {A} (f : A -> bool) (l1 l2 : list A) :
  find f (l1 ++ l2)%list
  = match find f l1 with
    | Some x => Some x
    | None => find f l2
    end.
Proof.
  induction l1 as [|a l1 IH]; simpl; [reflexivity|].
  destruct (f a); [reflexivity | exact IH].
Qed.

(** ** The validator on well-shaped documents *)

Lemma item_checks_cons (i : nat) (item : json) (l : list json) :
  item_checks i (item :: l)
  = (map (fun k => (present (field_of (Some item) k), item_message (Z.of_nat i) k))
         item_keys
     ++ item_checks (S i) l)%list.
Proof. reflexivity. Qed.

Lemma first_missing_object (fields : list string) (m : dict) :
  first_missing fields (JObj m)
  = Ok (find (fun k => negb (present (dict_get m k))) fields).
Proof.
  induction fields as [|k fields IH]; simpl; [reflexivity|].
  rewrite dict_contains_get.
  destruct (present (dict_get m k)); simpl; [exact IH | reflexivity].
Qed.

Lemma find_presence_checks (get : string -> option json) (msg : string -> string)
    (fields : list string) :
  find failing (map (fun k => (present (get k), msg k)) fields)
  = option_map (fun k => (false, msg k))
      (find (fun k => negb (present (get k))) fields).
Proof.
  induction fields as [|k fields IH]; simpl; [reflexivity|].
  unfold failing at 1; simpl.
  destruct (present (get k)); simpl; [exact IH | reflexivity].
Qed.

Lemma first_missing_item_field_checks (l : list json) :
  forallb is_object l = true ->
  forall i : nat,
    exists r,
      first_missing_item_field (Z.of_nat i) l = Ok r /\
      find failing (item_checks i l)
      = option_map (fun hit => (false, item_message (fst hit) (snd hit))) r.
Proof.
  induction l as [|item l IH]; intros Hobj i.
  - exists None. split; reflexivity.
  - simpl in Hobj. apply andb_true_iff in Hobj as [Hitem Hrest].
    destruct item as [| | | | | |m]; try discriminate.
    rewrite item_checks_cons, find_app.
    cbn [field_of]. rewrite find_presence_checks.
    change item_keys with required_item_fields.
    cbn [first_missing_item_field bind].
    rewrite first_missing_object. cbn [bind].
    destruct (find (fun k => negb (present (dict_get m k))) required_item_fields)
      as [k|]; cbn [option_map].
    + exists (Some (Z.of_nat i, k)). split; reflexivity.
    + destruct (IH Hrest (S i)) as [r [Hcode Hspec]].
      exists r. split; [|exact Hspec].
      replace (Z.of_nat i + 1) with (Z.of_nat (S i)) by lia. exact Hcode.
Qed.

Lemma missing_or_falsy_object (k : string) (m : dict) :
  missing_or_falsy k (JObj m) = Ok (negb (present_and_truthy (dict_get m k))).
Proof.
  unfold missing_or_falsy; cbn [contains bind subscript].
  rewrite dict_contains_get. unfold dict_subscript.
  destruct (dict_get m k); reflexivity.
Qed.

Lemma no_items_list (l : list json) :
  no_items (JArr l) = Ok (List.length l =? 0)%nat.
Proof. destruct l; reflexivity. Qed.

(** ** One submission attempt *)

Section Attempt.

Variable repr : json -> string.
Variable net : nat -> post_result.
Variable now : nat -> string.
Variable self : client.
Variable invoice_data : dict.

Local Abbreviation submit := (submit_invoice repr net now self invoice_data).
Local Abbreviation outcome_at := (attempt_outcome repr net now self invoice_data).
Local Abbreviation world_at := (attempt_world repr net now self invoice_data).

Ltac run_submit :=
  unfold attempt_outcome, attempt_world, submit_invoice, mbind, lift, ret,
    session_post, response_json, strftime, emit;
  cbn [posts trace fst snd].

Lemma submit_rejected (msg : string) (w : world) :
  validate_invoice_schema invoice_data = Ok (false, msg) ->
  submit w = (Ok (failure "invalid_schema" msg), w).
Proof. intros H. run_submit. rewrite H. reflexivity. Qed.

Lemma submit_raises (e : exn) (w : world) :
  validate_invoice_schema invoice_data = Raise e ->
  submit w = (Raise e, w).
Proof. intros H. run_submit. rewrite H. reflexivity. Qed.

(** The trace is only appended to, and neither the outcome nor the appended
    events depend on what it held. *)
Lemma submit_frame (w : world) :
  submit w
  = (outcome_at (posts w),
     {| posts := posts (world_at (posts w));
        trace := (trace w ++ trace (world_at (posts w)))%list |}).
Proof.
  run_submit.
  destruct (validate_invoice_schema invoice_data) as [[[] msg]|e];
    cbn [negb fst snd posts trace]; try (rewrite app_nil_r; destruct w; reflexivity).
  destruct (net (posts w)) as [r| | |d]; cbn [fst snd posts trace];
    try reflexivity.
  destruct (is_json r); cbn [fst snd posts trace]; [|reflexivity].
  rewrite <- app_assoc.
  destruct (json_body r) as [body|]; [|reflexivity].
  destruct (status_code r =? 200)%Z;
    [|destruct (status_code r =? 400)%Z]; try destruct body; reflexivity.
Qed.

(** A valid invoice is sent exactly once per attempt, and the attempt returns. *)
Lemma valid_attempt (m : string) (k : nat) :
  validate_invoice_schema invoice_data = Ok (true, m) ->
  (exists o, outcome_at k = Ok o) /\
  posts (world_at k) = S k /\
  timeline (trace (world_at k)) = [Request] /\
  delays (trace (world_at k)) = [].
Proof.
  intros H. run_submit. rewrite H. cbn [negb fst snd posts trace].
  destruct (net k) as [r| | |d]; cbn [fst snd posts trace];
    try (split; [eexists; reflexivity | repeat split]).
  destruct (is_json r); cbn [fst snd posts trace];
    [|split; [eexists; reflexivity | repeat split]].
  destruct (json_body r) as [body|];
    [|split; [eexists; reflexivity | repeat split]].
  destruct (status_code r =? 200)%Z;
    [|destruct (status_code r =? 400)%Z]; try destruct body;
    (split; [eexists; reflexivity | repeat split]).
Qed.

(** An attempt sends at most one request. *)
Lemma attempt_posts (k : nat) : (posts (world_at k) <= S k)%nat.
Proof.
  run_submit.
  destruct (validate_invoice_schema invoice_data) as [[[] msg]|e];
    cbn [negb fst snd posts trace]; try lia.
  destruct (net k) as [r| | |d]; cbn [fst snd posts trace]; try lia.
  destruct (is_json r); cbn [fst snd posts trace]; [|lia].
  destruct (json_body r) as [body|]; [|cbn [snd posts]; lia].
  destruct (status_code r =? 200)%Z;
    [|destruct (status_code r =? 400)%Z]; try destruct body; cbn [snd posts]; lia.
Qed.

(** An attempt that fails with a retryable error was made on a valid invoice. *)
Lemma retryable_attempt_valid (k : nat) (o : outcome) :
  outcome_at k = Ok o -> non_retryable o = false ->
  exists m, validate_invoice_schema invoice_data = Ok (true, m).
Proof.
  run_submit.
  destruct (validate_invoice_schema invoice_data) as [[[] msg]|e];
    cbn [negb fst snd]; intros H Hretry.
  - exists msg. reflexivity.
  - injection H as <-. discriminate.
  - discriminate.
Qed.

(** A failed attempt reports the status of [FAILED]; a successful one hands
    on the [status] of the response body, ["approved"] when it has none. *)
Lemma attempt_status (k : nat) (o : outcome) :
  outcome_at k = Ok o ->
  (success o = false -> status o = JStr (value FAILED)) /\
  (success o = true ->
   exists r fields,
     net k = Responded r /\ json_body r = Some (JObj fields) /\
     status o = dict_get_default fields "status" (JStr "approved")).
Proof.
  run_submit.
  destruct (validate_invoice_schema invoice_data) as [[[] msg]|e];
    cbn [negb fst snd posts trace]; [| |discriminate].
  2:{ intros H; injection H as <-. split; [reflexivity | discriminate]. }
  destruct (net k) as [r| | |d] eqn:Enet; cbn [fst snd posts trace];
    try (intros H; injection H as <-; split; [reflexivity | discriminate]).
  destruct (is_json r); cbn [fst snd posts trace];
    [|intros H; injection H as <-; split; [reflexivity | discriminate]].
  destruct (json_body r) as [body|] eqn:Ebody;
    [|intros H; injection H as <-; split; [reflexivity | discriminate]].
  destruct (status_code r =? 200)%Z;
    [|destruct (status_code r =? 400)%Z]; try destruct body;
    intros H; injection H as <-;
    try (split; [reflexivity | discriminate]).
  split; [discriminate|]. intros _. exists r, m. repeat split; assumption.
Qed.

End Attempt.

(** ** The retry loop *)

Section Retry.

Variable repr : json -> string.
Variable net : nat -> post_result.
Variable now : nat -> string.
Variable self : client.
Variable invoice_data : dict.
Variable max_retries : Z.

Local Abbreviation loop := (retry_loop repr net now self invoice_data max_retries).
Local Abbreviation outcome_at := (attempt_outcome repr net now self invoice_data).
Local Abbreviation world_at := (attempt_world repr net now self invoice_data).
Local Abbreviation after := (after_attempt repr net now self invoice_data).
Local Abbreviation rested := (rested_world repr net now self invoice_data max_retries).

Lemma success_numbered (n : Z) (o : outcome) :
  success (set_attempt_number n o) = success o.
Proof. reflexivity. Qed.

Lemma non_retryable_numbered (n : Z) (o : outcome) :
  non_retryable (set_attempt_number n o) = non_retryable o.
Proof. reflexivity. Qed.

Lemma loop_raises (a : nat) (rest : list nat) (attempts : list outcome)
    (w : world) (e : exn) :
  outcome_at (posts w) = Raise e ->
  loop (a :: rest) attempts w = (Raise e, after w).
Proof.
  intros H. cbn [retry_loop]. unfold mbind.
  rewrite submit_frame, H. reflexivity.
Qed.

Lemma loop_stops_here (a : nat) (rest : list nat) (attempts : list outcome)
    (w : world) (o : outcome) :
  outcome_at (posts w) = Ok o ->
  success o = true \/ non_retryable o = true ->
  loop (a :: rest) attempts w
  = (Ok {| store := (attempts
                     ++ [set_totals (Z.of_nat a + 1) (seq 0 (S (List.length attempts)))
                           (set_attempt_number (Z.of_nat a + 1) o)])%list;
           returned := List.length attempts |},
     after w).
Proof.
  intros H Hstop. cbn [retry_loop]. unfold mbind.
  rewrite submit_frame, H.
  cbv zeta. rewrite success_numbered, non_retryable_numbered.
  destruct (success o); [reflexivity|].
  destruct Hstop as [Hs|Hn]; [discriminate|].
  rewrite Hn. reflexivity.
Qed.

Lemma loop_goes_on (a : nat) (rest : list nat) (attempts : list outcome)
    (w : world) (o : outcome) :
  outcome_at (posts w) = Ok o ->
  success o = false -> non_retryable o = false ->
  loop (a :: rest) attempts w
  = loop rest (attempts ++ [set_attempt_number (Z.of_nat a + 1) o])%list (rested a w).
Proof.
  intros H Hs Hn. cbn [retry_loop]. unfold mbind at 1.
  rewrite submit_frame, H.
  cbv zeta. rewrite success_numbered, non_retryable_numbered, Hs, Hn.
  unfold mbind, rested_world, sleep, ret. fold (after w).
  destruct (Z.of_nat a <? max_retries - 1)%Z; reflexivity.
Qed.

Lemma loop_done (attempts : list outcome) (w : world) :
  loop [] attempts w
  = (Ok {| store := (attempts
                     ++ [all_retries_failed max_retries (seq 0 (List.length attempts))])%list;
           returned := List.length attempts |},
     w).
Proof. reflexivity. Qed.

Lemma posts_rested (a : nat) (w : world) (o : outcome) :
  outcome_at (posts w) = Ok o -> non_retryable o = false ->
  posts (rested a w) = S (posts w).
Proof.
  intros H Hn.
  destruct (retryable_attempt_valid repr net now self invoice_data _ _ H Hn) as [m Hm].
  destruct (valid_attempt repr net now self invoice_data m (posts w) Hm)
    as (_ & Hposts & _).
  unfold rested_world, after_attempt.
  destruct (Z.of_nat a <? max_retries - 1)%Z; cbn [posts emit]; exact Hposts.
Qed.

(** Attempts [a], ..., [a + n - 1] all fail with a retryable error: the loop
    runs through them, storing each outcome with its number. *)
Lemma loop_through (p : nat) (n : nat) :
  forall (a : nat) (attempts : list outcome) (rest : list nat) (w : world),
    posts w = (p + a)%nat ->
    (forall k, (a <= k < a + n)%nat ->
       exists o, outcome_at (p + k) = Ok o /\ success o = false /\ non_retryable o = false) ->
    exists cells w',
      loop (seq a n ++ rest)%list attempts w = loop rest (attempts ++ cells)%list w' /\
      posts w' = (p + a + n)%nat /\
      List.length cells = n /\
      forall j, (j < n)%nat ->
        exists raw, outcome_at (p + (a + j)) = Ok raw /\
                    nth_error cells j = Some (set_attempt_number (Z.of_nat (a + j) + 1) raw).
Proof.
  induction n as [|n IH]; intros a attempts rest w Hposts Hall.
  - exists [], w. rewrite app_nil_r, Nat.add_0_r. cbn [seq app List.length].
    repeat split; try assumption.
    intros j Hj. lia.
  - destruct (Hall a ltac:(lia)) as (o & Ho & Hs & Hn).
    rewrite <- Hposts in Ho.
    cbn [seq app]. rewrite (loop_goes_on _ _ _ _ _ Ho Hs Hn).
    destruct (IH (S a) (attempts ++ [set_attempt_number (Z.of_nat a + 1) o])%list
                rest (rested a w)) as (cells & w' & Hrun & Hp & Hlen & Hcells).
    + rewrite (posts_rested _ _ _ Ho Hn), Hposts. lia.
    + intros k Hk. apply Hall. lia.
    + exists (set_attempt_number (Z.of_nat a + 1) o :: cells), w'.
      rewrite Hrun, <- app_assoc. cbn [app List.length].
      repeat split; try lia.
      intros [|j] Hj.
      * exists o. rewrite Nat.add_0_r, <- Hposts. split; [exact Ho | reflexivity].
      * destruct (Hcells j ltac:(lia)) as (raw & Hraw & Hnth).
        exists raw. replace (a + S j)%nat with (S a + j)%nat by lia.
        split; [exact Hraw | exact Hnth].
Qed.

Lemma appended_app (w w' : world) (new : list event) :
  trace w' = (trace w ++ new)%list -> appended w w' = new.
Proof.
  intros H. unfold appended. rewrite H, skipn_app, skipn_all, Nat.sub_diag.
  reflexivity.
Qed.

Lemma schedule_from_next (a k : nat) :
  schedule_from a (S (S k)) = Request :: Delay (backoff a) :: schedule_from (S a) (S k).
Proof.
  unfold schedule_from. cbn [Nat.sub]. rewrite !Nat.sub_0_r. reflexivity.
Qed.

(** On a valid invoice the loop returns after some [S k] attempts, having
    sent one request per attempt and slept [2^i] between attempt [i] and
    attempt [i + 1]. *)
Lemma loop_schedule (m : string) :
  validate_invoice_schema invoice_data = Ok (true, m) ->
  forall (n a : nat) (attempts : list outcome) (w : world),
    List.length attempts = a ->
    Z.to_nat max_retries = (a + S n)%nat ->
    exists r w' new k final,
      loop (seq a (S n)) attempts w = (Ok r, w') /\
      trace w' = (trace w ++ new)%list /\
      (k <= n)%nat /\
      returned_outcome r = Some final /\
      total_attempts final = Some (Z.of_nat (a + S k)) /\
      timeline new = schedule_from a (S k) /\
      delays new = map backoff (seq a k).
Proof.
  intros Hvalid.
  induction n as [|n IH]; intros a attempts w Hlen Hmax;
    rewrite <- (cons_seq _ a);
    destruct (valid_attempt repr net now self invoice_data m (posts w) Hvalid)
      as ([o Ho] & _ & Hline & Hdelays);
    (destruct (success o) eqn:Hs; [|destruct (non_retryable o) eqn:Hn]).
  1,2,4,5:
    (rewrite (loop_stops_here a _ attempts w o Ho) by (rewrite ?Hs, ?Hn; tauto);
     eexists _, _, (trace (world_at (posts w))), 0%nat, _;
     repeat split;
     [ lia
     | unfold returned_outcome; cbn [store returned];
       rewrite nth_error_app2, Nat.sub_diag by lia; reflexivity
     | cbn [total_attempts set_totals]; f_equal; lia
     | exact Hline
     | exact Hdelays ]).
  - cbn [seq]. rewrite (loop_goes_on a _ attempts w o Ho Hs Hn), loop_done.
    eexists _, _, (trace (world_at (posts w))), 0%nat, _.
    repeat split.
    + unfold rested_world. replace (Z.of_nat a <? max_retries - 1)%Z with false
        by (symmetry; apply Z.ltb_ge; lia). reflexivity.
    + lia.
    + unfold returned_outcome; cbn [store returned].
      rewrite nth_error_app2, Nat.sub_diag by lia. reflexivity.
    + cbn [total_attempts all_retries_failed]. f_equal. lia.
    + exact Hline.
    + exact Hdelays.
  - rewrite (loop_goes_on a _ attempts w o Ho Hs Hn).
    destruct (IH (S a) (attempts ++ [set_attempt_number (Z.of_nat a + 1) o])%list
                (rested a w))
      as (r & w' & new & k & final & Hrun & Htrace & Hk & Hret & Htotal & Hl & Hd).
    + rewrite length_app. cbn [List.length]. lia.
    + lia.
    + rewrite Hrun.
      exists r, w', (trace (world_at (posts w)) ++ EvSleep (2 ^ Z.of_nat a) :: new)%list,
        (S k), final.
      repeat split.
      * rewrite Htrace. unfold rested_world.
        replace (Z.of_nat a <? max_retries - 1)%Z with true
          by (symmetry; apply Z.ltb_lt; lia).
        unfold emit, after_attempt. cbn [trace]. rewrite <- !app_assoc. reflexivity.
      * lia.
      * exact Hret.
      * rewrite Htotal. f_equal. lia.
      * unfold timeline in *. rewrite flat_map_app, Hline. cbn [flat_map app].
        rewrite Hl. symmetry. apply schedule_from_next.
      * unfold delays in *. rewrite flat_map_app, Hdelays. cbn [flat_map app seq map].
        rewrite Hd. reflexivity.
Qed.

(** The same run, with the attempts that shaped it: the [k] attempts before
    the last each failed with a retryable error, and the last one succeeded,
    failed with a non-retryable error, or was the last the range allows. *)
Lemma loop_schedule_stop (m : string) :
  validate_invoice_schema invoice_data = Ok (true, m) ->
  forall (n a : nat) (attempts : list outcome) (w : world),
    List.length attempts = a ->
    Z.to_nat max_retries = (a + S n)%nat ->
    exists r w' new k final last,
      loop (seq a (S n)) attempts w = (Ok r, w') /\
      trace w' = (trace w ++ new)%list /\
      (k <= n)%nat /\
      returned_outcome r = Some final /\
      total_attempts final = Some (Z.of_nat (a + S k)) /\
      timeline new = schedule_from a (S k) /\
      delays new = map backoff (seq a k) /\
      (forall i, (i < k)%nat -> retryable_failure (outcome_at (posts w + i))) /\
      outcome_at (posts w + k) = Ok last /\
      (success last = true \/ non_retryable last = true \/ k = n).
Proof.
  intros Hvalid.
  induction n as [|n IH]; intros a attempts w Hlen Hmax;
    rewrite <- (cons_seq _ a);
    destruct (valid_attempt repr net now self invoice_data m (posts w) Hvalid)
      as ([o Ho] & _ & Hline & Hdelays);
    (destruct (success o) eqn:Hs; [|destruct (non_retryable o) eqn:Hn]).
  1,2,4,5:
    (rewrite (loop_stops_here a _ attempts w o Ho) by (rewrite ?Hs, ?Hn; tauto);
     eexists _, _, (trace (world_at (posts w))), 0%nat, _, o;
     split; [reflexivity|]; split; [reflexivity|]; split; [lia|];
     split; [unfold returned_outcome; cbn [store returned];
             rewrite nth_error_app2, Nat.sub_diag by lia; reflexivity|];
     split; [cbn [total_attempts set_totals]; f_equal; lia|];
     split; [exact Hline|]; split; [exact Hdelays|];
     split; [intros i Hi; lia|];
     split; [rewrite Nat.add_0_r; exact Ho | rewrite ?Hs, ?Hn; tauto]).
  - cbn [seq]. rewrite (loop_goes_on a _ attempts w o Ho Hs Hn), loop_done.
    eexists _, _, (trace (world_at (posts w))), 0%nat, _, o.
    split; [reflexivity|]. split.
    { unfold rested_world. replace (Z.of_nat a <? max_retries - 1)%Z with false
        by (symmetry; apply Z.ltb_ge; lia). reflexivity. }
    split; [lia|]. split.
    { unfold returned_outcome; cbn [store returned].
      rewrite nth_error_app2, Nat.sub_diag by lia. reflexivity. }
    split; [cbn [total_attempts all_retries_failed]; f_equal; lia|].
    split; [exact Hline|]. split; [exact Hdelays|].
    split; [intros i Hi; lia|].
    split; [rewrite Nat.add_0_r; exact Ho | right; right; reflexivity].
  - rewrite (loop_goes_on a _ attempts w o Ho Hs Hn).
    destruct (IH (S a) (attempts ++ [set_attempt_number (Z.of_nat a + 1) o])%list
                (rested a w))
      as (r & w' & new & k & final & last & Hrun & Htrace & Hk & Hret & Htotal
          & Hl & Hd & Hbefore & Hlast & Hstop).
    + rewrite length_app. cbn [List.length]. lia.
    + lia.
    + rewrite (posts_rested _ _ _ Ho Hn) in Hbefore, Hlast.
      rewrite Hrun.
      exists r, w', (trace (world_at (posts w)) ++ EvSleep (2 ^ Z.of_nat a) :: new)%list,
        (S k), final, last.
      split; [reflexivity|]. split.
      { rewrite Htrace. unfold rested_world.
        replace (Z.of_nat a <? max_retries - 1)%Z with true
          by (symmetry; apply Z.ltb_lt; lia).
        unfold emit, after_attempt. cbn [trace]. rewrite <- !app_assoc. reflexivity. }
      split; [lia|]. split; [exact Hret|].
      split; [rewrite Htotal; f_equal; lia|]. split.
      { unfold timeline in *. rewrite flat_map_app, Hline. cbn [flat_map app].
        rewrite Hl. symmetry. apply schedule_from_next. }
      split.
      { unfold delays in *. rewrite flat_map_app, Hdelays. cbn [flat_map app seq map].
        rewrite Hd. reflexivity. }
      split.
      { intros [|i] Hi.
        - exists o. rewrite Nat.add_0_r. repeat split; assumption.
        - rewrite Nat.add_succ_r. apply Hbefore. lia. }
      split; [rewrite Nat.add_succ_r; exact Hlast|].
      destruct Hstop as [H|[H|H]]; [tauto | tauto | right; right; lia].
Qed.

(** Where the delays lie in the schedule of [n] attempts: the delay of
    attempt [i] right after its request, the request of attempt [i + 1] right
    after the delay. *)
Lemma schedule_from_nth (n : nat) :
  forall a i, (i < n - 1)%nat ->
    nth_error (schedule_from a n) (2 * i) = Some Request /\
    nth_error (schedule_from a n) (2 * i + 1) = Some (Delay (backoff (a + i))) /\
    nth_error (schedule_from a n) (2 * i + 2) = Some Request.
Proof.
  induction n as [|n IH]; intros a i Hi; [lia|].
  destruct n as [|n]; [lia|].
  rewrite schedule_from_next.
  destruct i as [|i].
  - rewrite Nat.add_0_r. cbn. unfold schedule_from. repeat split; reflexivity.
  - destruct (IH (S a) i ltac:(lia)) as (H0 & H1 & H2).
    replace (2 * S i)%nat with (S (S (2 * i))) by lia.
    replace (S (S (2 * i)) + 1)%nat with (S (S (2 * i + 1))) by lia.
    replace (S (S (2 * i)) + 2)%nat with (S (S (2 * i + 2))) by lia.
    cbn [nth_error]. replace (a + S i)%nat with (S a + i)%nat by lia.
    repeat split; assumption.
Qed.

Lemma status_rule_attempt (k : nat) (o : outcome) :
  outcome_at k = Ok o -> status_rule net k o.
Proof.
  intros H. exact (attempt_status repr net now self invoice_data k o H).
Qed.

Lemma nth_error_snoc {A : Type} (l : list A) (x y : A) (j : nat) :
  nth_error (l ++ [x])%list j = Some y ->
  nth_error l j = Some y \/ (j = List.length l /\ y = x).
Proof.
  intros H. destruct (Nat.lt_ge_cases j (List.length l)) as [Hlt|Hge].
  - left. rewrite nth_error_app1 in H by exact Hlt. exact H.
  - right. rewrite nth_error_app2 in H by exact Hge.
    destruct (j - List.length l)%nat as [|d] eqn:Hd; cbn [nth_error] in H.
    + injection H as <-. split; [lia | reflexivity].
    + destruct d; discriminate H.
Qed.

(** The dictionary the loop stores at address [j] obeys [status_rule] for
    request number [p + j], [p] being the number of requests sent before the
    run: each stored attempt sent one request. *)
Lemma loop_status (p : nat) (range : list nat) :
  forall (attempts : list outcome) (w : world) (r : retry_result) (w' : world),
    posts w = (p + List.length attempts)%nat ->
    (forall j o, nth_error attempts j = Some o -> status_rule net (p + j) o) ->
    loop range attempts w = (Ok r, w') ->
    forall j o, nth_error (store r) j = Some o -> status_rule net (p + j) o.
Proof.
  induction range as [|a rest IH]; intros attempts w r w' Hposts Hinv Hrun.
  - rewrite loop_done in Hrun. injection Hrun as <- _. cbn [store].
    intros j o Hj. destruct (nth_error_snoc _ _ _ _ Hj) as [Hold|[_ ->]].
    + exact (Hinv j o Hold).
    + split; [reflexivity | discriminate].
  - destruct (outcome_at (posts w)) as [o|e] eqn:Ho.
    2:{ rewrite (loop_raises a rest attempts w e Ho) in Hrun. discriminate. }
    pose proof (status_rule_attempt _ _ Ho) as Hrule. rewrite Hposts in Hrule.
    destruct (success o) eqn:Hs; [|destruct (non_retryable o) eqn:Hn].
    1,2:
      (rewrite (loop_stops_here a rest attempts w o Ho) in Hrun
         by (rewrite ?Hs, ?Hn; tauto);
       injection Hrun as <- _; cbn [store];
       intros j o' Hj; destruct (nth_error_snoc _ _ _ _ Hj) as [Hold|[-> ->]];
       [exact (Hinv j o' Hold) | exact Hrule]).
    rewrite (loop_goes_on a rest attempts w o Ho Hs Hn) in Hrun.
    apply (IH _ _ _ _) with (3 := Hrun).
    + rewrite (posts_rested _ _ _ Ho Hn), Hposts, length_app.
      cbn [List.length]. lia.
    + intros j o' Hj. destruct (nth_error_snoc _ _ _ _ Hj) as [Hold|[-> ->]];
        [exact (Hinv j o' Hold) | exact Hrule].
Qed.

(** A run that returns hands back the address of a stored dictionary. *)
Lemma loop_returns (range : list nat) :
  forall (attempts : list outcome) (w : world) (r : retry_result) (w' : world),
    loop range attempts w = (Ok r, w') ->
    exists final, returned_outcome r = Some final.
Proof.
  induction range as [|a rest IH]; intros attempts w r w' Hrun.
  - rewrite loop_done in Hrun. injection Hrun as <- _.
    unfold returned_outcome; cbn [store returned].
    rewrite nth_error_app2, Nat.sub_diag by lia. eexists; reflexivity.
  - destruct (outcome_at (posts w)) as [o|e] eqn:Ho.
    2:{ rewrite (loop_raises a rest attempts w e Ho) in Hrun. discriminate. }
    destruct (success o) eqn:Hs; [|destruct (non_retryable o) eqn:Hn].
    1,2:
      (rewrite (loop_stops_here a rest attempts w o Ho) in Hrun
         by (rewrite ?Hs, ?Hn; tauto);
       injection Hrun as <- _;
       unfold returned_outcome; cbn [store returned];
       rewrite nth_error_app2, Nat.sub_diag by lia; eexists; reflexivity).
    rewrite (loop_goes_on a rest attempts w o Ho Hs Hn) in Hrun.
    exact (IH _ _ _ _ Hrun).
Qed.

End Retry.

(** ** Properties of the client *)

(** C1.  When the validator rejects the document, [submit_invoice] returns
    the outcome [success = False], [status = "failed"],
    [error = "invalid_schema"] with the validator's message, and leaves the
    world as it found it: no request is posted. *)
Theorem rejected_invoice_is_not_sent
    (repr : json -> string) (net : nat -> post_result) (now : nat -> string)
    (self : client) (invoice_data : dict) (msg : string) (w : world) :
  validate_invoice_schema invoice_data = Ok (false, msg) ->
  exists o,
    submit_invoice repr net now self invoice_data w = (Ok o, w) /\
    success o = false /\
    error o = Some "invalid_schema" /\
    status o = JStr "failed" /\
    message o = JStr msg.
Proof.
  intros H. eexists. split.
  - apply submit_rejected. exact H.
  - repeat split.
Qed.

Lemma rejected_invoice_is_not_sent_witness :
  validate_invoice_schema empty_invoice
  = Ok (false, "Invoice must contain at least one item") /\
  exists o,
    submit_invoice no_repr (always Timeout) midnight kitchen empty_invoice start
    = (Ok o, start) /\
    success o = false /\
    error o = Some "invalid_schema" /\
    status o = JStr "failed" /\
    message o = JStr "Invoice must contain at least one item".
Proof.
  split; [reflexivity|].
  apply (rejected_invoice_is_not_sent no_repr (always Timeout) midnight kitchen
           empty_invoice "Invoice must contain at least one item" start).
  reflexivity.
Defined.

(** C5, as stated, fails on a document whose [business_info] is a number:
    the test ["tin" not in business_info] raises [TypeError] where the list
    of checks reports a missing TIN. *)
Lemma odd_invoice_raises : ~ follows_checks odd_invoice.
Proof. unfold follows_checks. vm_compute. discriminate. Qed.

(** C5, amended.  On a document whose [business_info] and [summary] are
    objects and whose [items] is a list of objects, the validator returns the
    verdict of the first failing check of [schema_checks], which lists the
    checks in the order top-level keys, TIN, business name, at least one
    item, item fields in item order, summary fields; it returns
    [(True, "Validation successful")] when no check fails. *)
Theorem validator_follows_checks (d : dict) :
  well_shaped d = true -> follows_checks d.
Proof.
  unfold well_shaped, follows_checks. intros Hshape.
  apply andb_true_iff in Hshape as [Hshape Hsummary].
  apply andb_true_iff in Hshape as [Hbusiness Hitems].
  unfold validate_invoice_schema, schema_checks, first_failure.
  rewrite first_missing_object. cbn [bind].
  rewrite !find_app, find_presence_checks.
  change top_level_keys with required_fields.
  change summary_keys with required_summary_fields.
  destruct (find (fun k => negb (present (dict_get d k))) required_fields)
    as [k|] eqn:Etop; cbn [option_map]; [reflexivity|].
  cbn [find required_fields] in Etop.
  unfold dict_subscript.
  destruct (dict_get d "invoice_id"); [|discriminate].
  destruct (dict_get d "business_info") as [b|]; [|discriminate].
  destruct (dict_get d "transaction_date"); [|discriminate].
  destruct (dict_get d "items") as [it|]; [|discriminate].
  destruct (dict_get d "summary") as [su|]; [|discriminate].
  clear Etop.
  destruct b as [| | | | | |b]; try discriminate.
  destruct it as [| | | | |l|]; try discriminate.
  destruct su as [| | | | | |su]; try discriminate.
  cbn [bind field_of items_of find].
  rewrite !missing_or_falsy_object. cbn [bind]. unfold failing at 1 2 3. cbn [fst snd].
  destruct (present_and_truthy (dict_get b "tin")); cbn [negb]; [|reflexivity].
  destruct (present_and_truthy (dict_get b "business_name")); cbn [negb]; [|reflexivity].
  rewrite no_items_list. cbn [bind iter].
  destruct (List.length l =? 0)%nat; cbn [negb]; [reflexivity|].
  destruct (first_missing_item_field_checks l Hitems 0) as [r [Hcode Hspec]].
  change (Z.of_nat 0) with 0 in Hcode. rewrite Hcode, Hspec. cbn [bind].
  destruct r as [[i k]|]; cbn [option_map fst snd]; [reflexivity|].
  rewrite first_missing_object, find_presence_checks. cbn [bind].
  destruct (find (fun k => negb (present (dict_get su k))) required_summary_fields);
    reflexivity.
Qed.

Lemma validator_follows_checks_witness :
  well_shaped sample_invoice = true /\ follows_checks sample_invoice.
Proof.
  split; [reflexivity|].
  apply (validator_follows_checks sample_invoice). reflexivity.
Defined.

(** C7.  A valid invoice whose request is answered with a content type that
    does not start with [application/json] gives [success = False],
    [error = "invalid_response"], [status = "failed"], whatever the status
    code; the request is the only event: [response.json()] is not called. *)
Theorem non_json_response_is_invalid
    (repr : json -> string) (net : nat -> post_result) (now : nat -> string)
    (self : client) (invoice_data : dict) (m : string) (r : response) (w : world) :
  validate_invoice_schema invoice_data = Ok (true, m) ->
  net (posts w) = Responded r ->
  is_json r = false ->
  exists o w',
    submit_invoice repr net now self invoice_data w = (Ok o, w') /\
    success o = false /\
    error o = Some "invalid_response" /\
    status o = JStr "failed" /\
    message o = JStr ("Server returned non-JSON response: " ++ str_of_int (status_code r)) /\
    trace w' = (trace w ++ [EvPost (base_url self ++ "/submit-invoice") invoice_data 10])%list.
Proof.
  intros Hvalid Hnet Hjson.
  unfold submit_invoice, mbind, lift, session_post.
  rewrite Hvalid. cbn [negb]. rewrite Hnet, Hjson.
  eexists _, _. split; [reflexivity|]. repeat split.
Qed.

Lemma non_json_response_is_invalid_witness :
  validate_invoice_schema sample_invoice = Ok (true, "Validation successful") /\
  always (Responded (html_response 200)) (posts start) = Responded (html_response 200) /\
  is_json (html_response 200) = false /\
  exists o w',
    submit_invoice no_repr (always (Responded (html_response 200))) midnight kitchen
      sample_invoice start = (Ok o, w') /\
    success o = false /\
    error o = Some "invalid_response" /\
    status o = JStr "failed" /\
    message o = JStr ("Server returned non-JSON response: "
                      ++ str_of_int (status_code (html_response 200))) /\
    trace w' = (trace start
                ++ [EvPost (base_url kitchen ++ "/submit-invoice") sample_invoice 10])%list.
Proof.
  split; [reflexivity|]. split; [reflexivity|]. split; [reflexivity|].
  apply (non_json_response_is_invalid no_repr (always (Responded (html_response 200)))
           midnight kitchen sample_invoice "Validation successful"
           (html_response 200) start); reflexivity.
Defined.

(** C10.  With [max_retries = 0] the loop body never runs: whatever the
    document, the world is left as it was found and the result is the
    dictionary built after the loop, with no attempt stored. *)
Theorem zero_retries_make_no_attempt
    (repr : json -> string) (net : nat -> post_result) (now : nat -> string)
    (self : client) (invoice_data : dict) (w : world) :
  exists r final,
    submit_invoice_with_retry repr net now self invoice_data 0 w = (Ok r, w) /\
    store r = [final] /\
    returned_outcome r = Some final /\
    success final = false /\
    error final = Some "all_retries_failed" /\
    status final = JStr "failed" /\
    total_attempts final = Some 0 /\
    all_attempts final = Some [].
Proof.
  eexists _, _. split; [reflexivity|]. repeat split.
Qed.

(** C6, as stated, fails on an answer with status 200 and a JSON content type
    whose body is not JSON, which the client reports as [invalid_json], and
    on an object body without [tax_authority_id], where the default is
    ["Unknown"]. *)
Lemma ok_response_without_object_body :
  ~ spec_ok_response no_repr (always (Responded (json_response 200 None))) midnight
      kitchen sample_invoice start
  /\ ~ spec_ok_response no_repr (always (Responded (json_response 200 (Some (JObj [])))))
         midnight kitchen sample_invoice start.
Proof.
  split; intros H;
    destruct (H "Validation successful" _ eq_refl eq_refl eq_refl eq_refl)
      as (o & w' & body & sentence & stamp & Hrun & Hs & Hdata & _ & Hid & _);
    vm_compute in Hrun; injection Hrun as <- _.
  - discriminate Hs.
  - injection Hdata as <-. discriminate Hid.
Qed.

(** C6, amended.  A valid invoice answered with status 200, a content type
    starting with [application/json] and a body that parses to a JSON object
    gives [success = True], with [status] from the body or ["approved"],
    [tax_authority_id] from the body or ["Unknown"], [message] from the body
    or the default sentence, the parsed body as [data], and the time read
    after the request as [submitted_at]. *)
Theorem ok_response_gives_success
    (repr : json -> string) (net : nat -> post_result) (now : nat -> string)
    (self : client) (invoice_data : dict) (m : string) (r : response)
    (fields : dict) (w : world) :
  validate_invoice_schema invoice_data = Ok (true, m) ->
  net (posts w) = Responded r ->
  status_code r = 200 ->
  is_json r = true ->
  json_body r = Some (JObj fields) ->
  exists o w',
    submit_invoice repr net now self invoice_data w = (Ok o, w') /\
    success o = true /\
    status o = dict_get_default fields "status" (JStr "approved") /\
    tax_authority_id o = Some (dict_get_default fields "tax_authority_id" (JStr "Unknown")) /\
    message o = dict_get_default fields "message"
                  (JStr "Invoice submitted successfully to tax authority") /\
    data o = Some (JObj fields) /\
    submitted_at o = Some (now (S (posts w))).
Proof.
  intros Hvalid Hnet Hcode Hjson Hbody.
  unfold submit_invoice, mbind, lift, session_post, response_json, strftime.
  rewrite Hvalid. cbn [negb]. rewrite Hnet, Hjson. cbn [emit posts trace].
  rewrite Hbody, Hcode. cbn [Z.eqb Pos.eqb].
  eexists _, _. split; [reflexivity|]. repeat split.
Qed.

Lemma ok_response_gives_success_witness :
  validate_invoice_schema sample_invoice = Ok (true, "Validation successful") /\
  always (Responded approved_response) (posts start) = Responded approved_response /\
  status_code approved_response = 200 /\
  is_json approved_response = true /\
  json_body approved_response = Some (JObj approved_body) /\
  exists o w',
    submit_invoice no_repr (always (Responded approved_response)) midnight kitchen
      sample_invoice start = (Ok o, w') /\
    success o = true /\
    status o = dict_get_default approved_body "status" (JStr "approved") /\
    tax_authority_id o
    = Some (dict_get_default approved_body "tax_authority_id" (JStr "Unknown")) /\
    message o = dict_get_default approved_body "message"
                  (JStr "Invoice submitted successfully to tax authority") /\
    data o = Some (JObj approved_body) /\
    submitted_at o = Some (midnight (S (posts start))).
Proof.
  repeat (split; [reflexivity|]).
  apply (ok_response_gives_success no_repr (always (Responded approved_response))
           midnight kitchen sample_invoice "Validation successful"
           approved_response approved_body start);
    reflexivity.
Defined.

(** C8, as stated, fails on an answer with status 400 and a JSON content type
    whose body is not JSON, which the client reports as [invalid_json], and
    on an object body without [error], where the default detail is
    ["Validation error"]. *)
Lemma bad_request_without_object_body :
  ~ spec_bad_request no_repr (always (Responded (json_response 400 None))) midnight
      kitchen sample_invoice start
  /\ ~ spec_bad_request no_repr (always (Responded (json_response 400 (Some (JObj [])))))
         midnight kitchen sample_invoice start.
Proof.
  split; intros H;
    destruct (H "Validation successful" _ eq_refl eq_refl eq_refl eq_refl)
      as (o & w' & text & Hrun & _ & Herr & _ & Hmsg & Hsub);
    vm_compute in Hrun; injection Hrun as <- _.
  - discriminate Herr.
  - injection Hmsg as <-. vm_compute in Hsub. discriminate Hsub.
Qed.

Lemma prefix_refl (s : string) : String.prefix s s = true.
Proof.
  induction s as [|c s IH]; [reflexivity|].
  cbn [String.prefix]. destruct (ascii_dec c c); [exact IH | congruence].
Qed.

Lemma is_substring_suffix (before s : string) :
  is_substring s (before ++ s) = true.
Proof.
  induction before as [|c before IH]; cbn [String.append].
  - destruct s; cbn [is_substring]; rewrite prefix_refl; reflexivity.
  - cbn [is_substring]. rewrite IH. apply orb_true_r.
Qed.

(** C8, amended.  A valid invoice answered with status 400, a content type
    starting with [application/json] and a body that parses to a JSON object
    gives [success = False], [error = "validation_error"],
    [status = "failed"] and the message
    ["Tax authority validation failed: "] followed by the body's [error]
    field, ["Validation error"] when the body has none; the message
    contains that detail. *)
Theorem bad_request_is_validation_error
    (repr : json -> string) (net : nat -> post_result) (now : nat -> string)
    (self : client) (invoice_data : dict) (m : string) (r : response)
    (fields : dict) (w : world) :
  validate_invoice_schema invoice_data = Ok (true, m) ->
  net (posts w) = Responded r ->
  status_code r = 400 ->
  is_json r = true ->
  json_body r = Some (JObj fields) ->
  let detail := format repr (dict_get_default fields "error" (JStr "Validation error")) in
  exists o w',
    submit_invoice repr net now self invoice_data w = (Ok o, w') /\
    success o = false /\
    error o = Some "validation_error" /\
    status o = JStr "failed" /\
    message o = JStr ("Tax authority validation failed: " ++ detail) /\
    is_substring detail ("Tax authority validation failed: " ++ detail) = true.
Proof.
  intros Hvalid Hnet Hcode Hjson Hbody detail.
  unfold submit_invoice, mbind, lift, session_post, response_json.
  rewrite Hvalid. cbn [negb]. rewrite Hnet, Hjson. cbn [emit posts trace].
  rewrite Hbody, Hcode. cbn [Z.eqb Pos.eqb].
  eexists _, _. split; [reflexivity|]. repeat split.
  apply is_substring_suffix.
Qed.

Lemma bad_request_is_validation_error_witness :
  validate_invoice_schema sample_invoice = Ok (true, "Validation successful") /\
  always (Responded bad_tin_response) (posts start) = Responded bad_tin_response /\
  status_code bad_tin_response = 400 /\
  is_json bad_tin_response = true /\
  json_body bad_tin_response = Some (JObj bad_tin_body) /\
  exists o w',
    submit_invoice no_repr (always (Responded bad_tin_response)) midnight kitchen
      sample_invoice start = (Ok o, w') /\
    success o = false /\
    error o = Some "validation_error" /\
    status o = JStr "failed" /\
    message o = JStr ("Tax authority validation failed: " ++ "bad tin") /\
    is_substring "bad tin" ("Tax authority validation failed: " ++ "bad tin") = true.
Proof.
  repeat (split; [reflexivity|]).
  apply (bad_request_is_validation_error no_repr (always (Responded bad_tin_response))
           midnight kitchen sample_invoice "Validation successful"
           bad_tin_response bad_tin_body start);
    reflexivity.
Defined.

(** C9, as stated, fails on a successful submission: the body of the answer
    has no [status], so the outcome carries ["approved"], which is not a
    value of [SubmissionStatus]. *)
Lemma approved_is_not_a_submission_status :
  exists o w',
    submit_invoice no_repr (always (Responded (json_response 200 (Some (JObj [])))))
      midnight kitchen sample_invoice start = (Ok o, w') /\
    ~ status_in_enum o.
Proof.
  eexists _, _. split; [vm_compute; reflexivity|].
  intros [[] H]; vm_compute in H; discriminate H.
Qed.

(** C9, amended.  An outcome [submit_invoice] returns has
    [status = "failed"] when [success] is false; when [success] is true its
    [status] is the [status] field of the body of the response that call
    received, the response to request number [posts w], or ["approved"] when
    the body has none.  The same holds of every dictionary a retry run
    stores, the per-attempt outcomes and the one returned: the dictionary at
    address [j] is judged against the response to the request of attempt
    [j], request number [posts w + j]. *)
Theorem returned_status
    (repr : json -> string) (net : nat -> post_result) (now : nat -> string)
    (self : client) (invoice_data : dict) (max_retries : Z) (w : world) :
  match fst (submit_invoice repr net now self invoice_data w) with
  | Ok o => status_rule net (posts w) o
  | Raise _ => True
  end
  /\ match fst (submit_invoice_with_retry repr net now self invoice_data max_retries w) with
     | Ok r =>
         (forall j o, nth_error (store r) j = Some o ->
            status_rule net (posts w + j) o) /\
         exists final,
           returned_outcome r = Some final /\
           status_rule net (posts w + returned r) final
     | Raise _ => True
     end.
Proof.
  split.
  - rewrite submit_frame. cbn [fst].
    destruct (attempt_outcome repr net now self invoice_data (posts w)) as [o|e] eqn:Ho;
      [|exact I].
    exact (status_rule_attempt repr net now self invoice_data _ _ Ho).
  - destruct (submit_invoice_with_retry repr net now self invoice_data max_retries w)
      as [[r|e] w'] eqn:Hrun; cbn [fst]; [|exact I].
    assert (Hall : forall j o, nth_error (store r) j = Some o ->
                     status_rule net (posts w + j) o).
    { apply (loop_status repr net now self invoice_data max_retries (posts w)
               (seq 0 (Z.to_nat max_retries)) [] w r w');
        [cbn [List.length]; lia | | exact Hrun].
      intros [|j] o Hj; discriminate Hj. }
    split; [exact Hall|].
    destruct (loop_returns repr net now self invoice_data max_retries _ _ _ _ _ Hrun)
      as [final Hfinal].
    exists final. split; [exact Hfinal|].
    exact (Hall _ _ Hfinal).
Qed.

(** C2.  When each of the [max_retries] attempts fails with a retryable
    error, the run returns the dictionary built after the loop:
    [success = False], [error = "all_retries_failed"],
    [total_attempts = max_retries], and [all_attempts] lists [max_retries]
    stored outcomes, the one at position [k] being the outcome of attempt
    [k] with its own error tag and [attempt_number = k + 1].  Attempt [k]
    (from 0) is the call of [submit_invoice] made once the [k] attempts
    before it have each sent their request. *)
Theorem retries_exhausted
    (repr : json -> string) (net : nat -> post_result) (now : nat -> string)
    (self : client) (invoice_data : dict) (max_retries : Z) (w : world) :
  1 <= max_retries ->
  (forall k, (k < Z.to_nat max_retries)%nat ->
     exists o,
       attempt_outcome repr net now self invoice_data (posts w + k) = Ok o /\
       success o = false /\ non_retryable o = false) ->
  exists r w' final refs,
    submit_invoice_with_retry repr net now self invoice_data max_retries w = (Ok r, w') /\
    returned_outcome r = Some final /\
    success final = false /\
    error final = Some "all_retries_failed" /\
    total_attempts final = Some max_retries /\
    all_attempts final = Some refs /\
    Z.of_nat (List.length refs) = max_retries /\
    forall k, (k < Z.to_nat max_retries)%nat ->
      exists address cell raw,
        nth_error refs k = Some address /\
        nth_error (store r) address = Some cell /\
        attempt_outcome repr net now self invoice_data (posts w + k) = Ok raw /\
        error cell = error raw /\
        attempt_number cell = Some (Z.of_nat k + 1).
Proof.
  intros Hmax Hall.
  destruct (loop_through repr net now self invoice_data max_retries (posts w)
              (Z.to_nat max_retries) 0 [] [] w)
    as (cells & w' & Hrun & _ & Hlen & Hcells).
  - lia.
  - intros k Hk. apply Hall. lia.
  - unfold submit_invoice_with_retry.
    rewrite app_nil_r in Hrun. rewrite Hrun, loop_done. cbn [app].
    eexists _, w', _, _. split; [reflexivity|].
    unfold returned_outcome. cbn [store returned].
    rewrite nth_error_app2, Nat.sub_diag by lia.
    split; [reflexivity|]. repeat split.
    + rewrite length_seq, Hlen. lia.
    + intros k Hk. destruct (Hcells k Hk) as (raw & Hraw & Hnth).
      exists k, (set_attempt_number (Z.of_nat (0 + k) + 1) raw), raw.
      repeat split.
      * rewrite nth_error_seq, Hlen.
        destruct (Nat.ltb_spec k (Z.to_nat max_retries)); [reflexivity | lia].
      * rewrite nth_error_app1 by lia. exact Hnth.
      * exact Hraw.
Qed.

Lemma retries_exhausted_witness :
  1 <= 3 /\
  (forall k, (k < Z.to_nat 3)%nat ->
     exists o,
       attempt_outcome no_repr (always Timeout) midnight kitchen sample_invoice
         (posts start + k) = Ok o /\
       success o = false /\ non_retryable o = false) /\
  exists r w' final refs,
    submit_invoice_with_retry no_repr (always Timeout) midnight kitchen sample_invoice 3
      start = (Ok r, w') /\
    returned_outcome r = Some final /\
    success final = false /\
    error final = Some "all_retries_failed" /\
    total_attempts final = Some 3 /\
    all_attempts final = Some refs /\
    Z.of_nat (List.length refs) = 3 /\
    forall k, (k < Z.to_nat 3)%nat ->
      exists address cell raw,
        nth_error refs k = Some address /\
        nth_error (store r) address = Some cell /\
        attempt_outcome no_repr (always Timeout) midnight kitchen sample_invoice
          (posts start + k) = Ok raw /\
        error cell = error raw /\
        attempt_number cell = Some (Z.of_nat k + 1).
Proof.
  assert (Hall : forall k, (k < Z.to_nat 3)%nat ->
     exists o,
       attempt_outcome no_repr (always Timeout) midnight kitchen sample_invoice
         (posts start + k) = Ok o /\
       success o = false /\ non_retryable o = false).
  { intros k _. eexists. split; [vm_compute; reflexivity|]. split; reflexivity. }
  split; [lia|]. split; [exact Hall|].
  apply (retries_exhausted no_repr (always Timeout) midnight kitchen sample_invoice 3
           start); [lia | exact Hall].
Defined.

(** C3.  When attempts 1 to [n - 1] fail with a retryable error and attempt
    [n] fails with a non-retryable one, the run makes exactly [n] attempts
    and returns the dictionary of attempt [n], its error tag kept, with
    [attempt_number = n], [total_attempts = n] and [all_attempts] of length
    [n]; that dictionary is itself the last entry of its [all_attempts], and
    no more than [n] requests were sent. *)
Theorem non_retryable_stops
    (repr : json -> string) (net : nat -> post_result) (now : nat -> string)
    (self : client) (invoice_data : dict) (max_retries : Z) (w : world)
    (n : nat) (o : outcome) :
  (1 <= n)%nat ->
  Z.of_nat n <= max_retries ->
  (forall k, (k < n - 1)%nat ->
     exists o',
       attempt_outcome repr net now self invoice_data (posts w + k) = Ok o' /\
       success o' = false /\ non_retryable o' = false) ->
  attempt_outcome repr net now self invoice_data (posts w + (n - 1)) = Ok o ->
  success o = false ->
  non_retryable o = true ->
  exists r w' final refs,
    submit_invoice_with_retry repr net now self invoice_data max_retries w = (Ok r, w') /\
    List.length (store r) = n /\
    (posts w' <= posts w + n)%nat /\
    returned_outcome r = Some final /\
    final = set_totals (Z.of_nat n) refs (set_attempt_number (Z.of_nat n) o) /\
    success final = false /\
    error final = error o /\
    total_attempts final = Some (Z.of_nat n) /\
    all_attempts final = Some refs /\
    List.length refs = n /\
    nth_error refs (n - 1) = Some (returned r).
Proof.
  intros Hn Hmax Hbefore Ho Hs Hnr.
  destruct n as [|n]; [lia|]. cbn [Nat.sub] in *. rewrite Nat.sub_0_r in *.
  destruct (loop_through repr net now self invoice_data max_retries (posts w) n 0 []
              (n :: seq (S n) (Z.to_nat max_retries - S n)) w)
    as (cells & w' & Hrun & Hposts & Hlen & _).
  - lia.
  - intros k Hk. apply Hbefore. lia.
  - unfold submit_invoice_with_retry.
    replace (seq 0 (Z.to_nat max_retries))
      with (seq 0 n ++ n :: seq (S n) (Z.to_nat max_retries - S n))%list.
    2:{ rewrite cons_seq, <- seq_app. f_equal. lia. }
    rewrite Hrun. cbn [app].
    rewrite Nat.add_0_r in Hposts. rewrite <- Hposts in Ho.
    rewrite (loop_stops_here repr net now self invoice_data max_retries
               n _ cells w' o Ho (or_intror Hnr)).
    rewrite Hlen.
    replace (Z.of_nat n + 1) with (Z.of_nat (S n)) by lia.
    eexists _, _, _, _. split; [reflexivity|].
    unfold returned_outcome. cbn [store returned].
    rewrite nth_error_app2, Hlen, Nat.sub_diag by lia.
    split; [rewrite length_app, Hlen; cbn [List.length]; lia|].
    split.
    { unfold after_attempt. cbn [posts].
      pose proof (attempt_posts repr net now self invoice_data (posts w')). lia. }
    split; [reflexivity|]. split; [reflexivity|].
    repeat split; try assumption.
    + apply length_seq.
    + rewrite nth_error_seq.
      destruct (Nat.ltb_spec n (S n)); [reflexivity | lia].
Qed.

Lemma non_retryable_stops_witness :
  (1 <= 1)%nat /\
  Z.of_nat 1 <= 3 /\
  (forall k, (k < 1 - 1)%nat ->
     exists o',
       attempt_outcome no_repr (always (Responded bad_tin_response)) midnight kitchen
         sample_invoice (posts start + k) = Ok o' /\
       success o' = false /\ non_retryable o' = false) /\
  attempt_outcome no_repr (always (Responded bad_tin_response)) midnight kitchen
    sample_invoice (posts start + (1 - 1)) = Ok bad_tin_outcome /\
  success bad_tin_outcome = false /\
  non_retryable bad_tin_outcome = true /\
  exists r w' final refs,
    submit_invoice_with_retry no_repr (always (Responded bad_tin_response)) midnight
      kitchen sample_invoice 3 start = (Ok r, w') /\
    List.length (store r) = 1%nat /\
    (posts w' <= posts start + 1)%nat /\
    returned_outcome r = Some final /\
    final = set_totals (Z.of_nat 1) refs (set_attempt_number (Z.of_nat 1) bad_tin_outcome) /\
    success final = false /\
    error final = error bad_tin_outcome /\
    total_attempts final = Some (Z.of_nat 1) /\
    all_attempts final = Some refs /\
    List.length refs = 1%nat /\
    nth_error refs (1 - 1) = Some (returned r).
Proof.
  assert (Hnone : forall k, (k < 1 - 1)%nat ->
     exists o',
       attempt_outcome no_repr (always (Responded bad_tin_response)) midnight kitchen
         sample_invoice (posts start + k) = Ok o' /\
       success o' = false /\ non_retryable o' = false).
  { intros k Hk. cbn in Hk. lia. }
  split; [lia|]. split; [lia|]. split; [exact Hnone|].
  split; [vm_compute; reflexivity|]. split; [reflexivity|]. split; [reflexivity|].
  apply (non_retryable_stops no_repr (always (Responded bad_tin_response)) midnight
           kitchen sample_invoice 3 start 1 bad_tin_outcome);
    [lia | lia | exact Hnone | vm_compute; reflexivity | reflexivity | reflexivity].
Defined.

(** C4.  For [max_retries >= 1], a run that raises appends nothing to the
    trace.  A run that returns has made [m] attempts, [m] being the
    [total_attempts] it reports, with [1 <= m <= max_retries]; attempt [i]
    (from 0) is the call of [submit_invoice] made once the [i] attempts
    before it have each sent their request.  The attempts [0, ..., m - 2]
    each failed with a retryable error, and attempt [m - 1], the last, was
    successful, failed with a non-retryable error, or was attempt
    [max_retries - 1]: the run goes on exactly from a retryable failure with
    attempts left.  Every attempt made that failed with a retryable error at
    an index [i < max_retries - 1] has the delay [2^i] right after its
    request and the request of attempt [i + 1] right after that delay.  The
    delays slept are exactly [2^0, ..., 2^(m-2)]; on a valid invoice requests
    and delays alternate and the last event is the request of attempt
    [m - 1], so nothing is slept after the final attempt, a successful one or
    a non-retryable one; an invoice the validator rejects ends the run at
    its first attempt with nothing appended. *)
Theorem backoff_schedule
    (repr : json -> string) (net : nat -> post_result) (now : nat -> string)
    (self : client) (invoice_data : dict) (max_retries : Z) (w : world) :
  1 <= max_retries ->
  let run := submit_invoice_with_retry repr net now self invoice_data max_retries w in
  let new := appended w (snd run) in
  let attempt := fun i => attempt_outcome repr net now self invoice_data (posts w + i) in
  trace (snd run) = (trace w ++ new)%list /\
  match fst run with
  | Raise _ => new = []
  | Ok r =>
      exists final m last,
        returned_outcome r = Some final /\
        total_attempts final = Some (Z.of_nat m) /\
        (1 <= m)%nat /\
        Z.of_nat m <= max_retries /\
        (forall i, (i < m - 1)%nat -> retryable_failure (attempt i)) /\
        attempt (m - 1)%nat = Ok last /\
        (success last = true \/ non_retryable last = true \/ Z.of_nat m = max_retries) /\
        (forall i, (i < m)%nat -> Z.of_nat i < max_retries - 1 ->
           retryable_failure (attempt i) ->
           nth_error (timeline new) (2 * i) = Some Request /\
           nth_error (timeline new) (2 * i + 1) = Some (Delay (backoff i)) /\
           nth_error (timeline new) (2 * i + 2) = Some Request) /\
        delays new = map backoff (seq 0 (m - 1)) /\
        match validate_invoice_schema invoice_data with
        | Ok (true, _) => timeline new = schedule m
        | _ => m = 1%nat /\ new = []
        end
  end.
Proof.
  intros Hmax run new attempt. subst new run attempt.
  unfold submit_invoice_with_retry.
  destruct (Z.to_nat max_retries) as [|n] eqn:Hn; [lia|].
  destruct (validate_invoice_schema invoice_data) as [[[] msg]|e] eqn:Hvalid.
  - destruct (loop_schedule_stop repr net now self invoice_data max_retries msg Hvalid
                n 0 [] w eq_refl Hn)
      as (r & w' & new & k & final & last & Hrun & Htrace & Hk & Hret & Htotal
          & Hline & Hd & Hbefore & Hlast & Hstop).
    rewrite Hrun. cbn [fst snd]. rewrite (appended_app w w' new Htrace).
    split; [exact Htrace|].
    exists final, (S k), last. cbn [Nat.sub]. rewrite Nat.sub_0_r.
    split; [exact Hret|]. split; [exact Htotal|]. split; [lia|]. split; [lia|].
    split; [exact Hbefore|]. split; [exact Hlast|].
    split; [destruct Hstop as [H|[H|H]]; [tauto | tauto | right; right; lia]|].
    split; [|split; [exact Hd | exact Hline]].
    intros i Hi Hleft (o & Ho & Hs & Hretry).
    assert (Hin : (i < S k - 1)%nat).
    { destruct (Nat.eq_dec i k) as [->|]; [|lia].
      rewrite Hlast in Ho. injection Ho as <-.
      destruct Hstop as [H|[H|H]]; [congruence | congruence | lia]. }
    rewrite Hline. exact (schedule_from_nth (S k) 0 i Hin).
  - cbn [seq retry_loop]. unfold mbind.
    rewrite (submit_rejected repr net now self invoice_data msg w Hvalid).
    cbn [fst snd success non_retryable error failure set_attempt_number existsb
           non_retryable_errors String.eqb Ascii.eqb Bool.eqb orb ret].
    unfold appended. rewrite skipn_all. split; [now rewrite app_nil_r|].
    assert (Hfirst : attempt_outcome repr net now self invoice_data (posts w + 0)
                     = Ok (failure "invalid_schema" msg)).
    { unfold attempt_outcome.
      rewrite (submit_rejected repr net now self invoice_data msg _ Hvalid).
      reflexivity. }
    eexists _, 1%nat, (failure "invalid_schema" msg). cbn [Nat.sub].
    split; [reflexivity|]. split; [reflexivity|]. split; [lia|]. split; [lia|].
    split; [intros i Hi; lia|]. split; [exact Hfirst|].
    split; [right; left; reflexivity|].
    split; [|split; [reflexivity | split; reflexivity]].
    intros i Hi _ (o & Ho & _ & Hretry).
    replace i with 0%nat in Ho by lia.
    rewrite Hfirst in Ho. injection Ho as <-. discriminate Hretry.
  - cbn [seq retry_loop]. unfold mbind.
    rewrite (submit_raises repr net now self invoice_data e w Hvalid).
    cbn [fst snd]. unfold appended. rewrite skipn_all.
    split; [now rewrite app_nil_r | reflexivity].
Qed.

Lemma backoff_schedule_witness :
  1 <= 3 /\
  delays (appended start
            (snd (submit_invoice_with_retry no_repr (always Timeout) midnight kitchen
                    sample_invoice 3 start)))
  = [1; 2] /\
  let run := submit_invoice_with_retry no_repr (always Timeout) midnight kitchen
               sample_invoice 3 start in
  let new := appended start (snd run) in
  let attempt := fun i => attempt_outcome no_repr (always Timeout) midnight kitchen
                            sample_invoice (posts start + i) in
  trace (snd run) = (trace start ++ new)%list /\
  match fst run with
  | Raise _ => new = []
  | Ok r =>
      exists final m last,
        returned_outcome r = Some final /\
        total_attempts final = Some (Z.of_nat m) /\
        (1 <= m)%nat /\
        Z.of_nat m <= 3 /\
        (forall i, (i < m - 1)%nat -> retryable_failure (attempt i)) /\
        attempt (m - 1)%nat = Ok last /\
        (success last = true \/ non_retryable last = true \/ Z.of_nat m = 3) /\
        (forall i, (i < m)%nat -> Z.of_nat i < 3 - 1 ->
           retryable_failure (attempt i) ->
           nth_error (timeline new) (2 * i) = Some Request /\
           nth_error (timeline new) (2 * i + 1) = Some (Delay (backoff i)) /\
           nth_error (timeline new) (2 * i + 2) = Some Request) /\
        delays new = map backoff (seq 0 (m - 1)) /\
        match validate_invoice_schema sample_invoice with
        | Ok (true, _) => timeline new = schedule m
        | _ => m = 1%nat /\ new = []
        end
  end.
Proof.
  split; [lia|]. split; [vm_compute; reflexivity|].
  apply (backoff_schedule no_repr (always Timeout) midnight kitchen sample_invoice 3
           start).
  lia.
Defined.

(** ** More on the validator *)

Lemma find_ext_in {A} (f g : A -> bool) (l : list A) :
  (forall x, In x l -> f x = g x) -> find f l = find g l.
Proof.
  induction l as [|a l IH]; intros H; [reflexivity|].
  cbn [find]. rewrite (H a (or_introl eq_refl)), IH; [reflexivity|].
  intros x Hx. apply H. right. exact Hx.
Qed.

Lemma first_missing_found (fields : list string) (v : json) :
  first_missing fields v = Ok None ->
  forall f, In f fields -> contains f v = Ok true.
Proof.
  induction fields as [|k fields IH]; intros H f Hf; [destruct Hf|].
  cbn [first_missing] in H.
  destruct (contains k v) as [[]|e] eqn:Hk; cbn [bind] in H; try discriminate.
  destruct Hf as [<-|Hf]; [exact Hk | exact (IH H f Hf)].
Qed.

Lemma first_missing_item_field_found (l : list json) :
  forall i, first_missing_item_field i l = Ok None ->
  forall item, In item l -> first_missing required_item_fields item = Ok None.
Proof.
  induction l as [|a l IH]; intros i H item Hitem; [destruct Hitem|].
  cbn [first_missing_item_field] in H.
  destruct (first_missing required_item_fields a) as [[k|]|e] eqn:Ha;
    cbn [bind] in H; try discriminate.
  destruct Hitem as [<-|Hitem]; [exact Ha | exact (IH _ H item Hitem)].
Qed.

Lemma missing_or_falsy_passed (k : string) (v : json) :
  missing_or_falsy k v = Ok false ->
  exists m, v = JObj m /\ present_and_truthy (dict_get m k) = true.
Proof.
  destruct v as [| | | | s|l|m]; try discriminate.
  - unfold missing_or_falsy. cbn [contains bind subscript].
    destruct (is_substring k s); discriminate.
  - unfold missing_or_falsy. cbn [contains bind subscript].
    destruct (existsb (is_str k) l); discriminate.
  - rewrite missing_or_falsy_object. intros H. exists m. split; [reflexivity|].
    injection H as H. destruct (present_and_truthy (dict_get m k)); [reflexivity | discriminate].
Qed.

Lemma no_key_error_bind {A B} (r : result A) (k : A -> result B) :
  no_key_error r -> (forall a, r = Ok a -> no_key_error (k a)) ->
  no_key_error (bind r k).
Proof.
  intros Hr Hk. destruct r as [a|e]; cbn [bind]; [apply Hk; reflexivity | exact Hr].
Qed.

Lemma contains_no_key_error (k : string) (v : json) : no_key_error (contains k v).
Proof. destruct v; exact I. Qed.

Lemma first_missing_no_key_error (fields : list string) (v : json) :
  no_key_error (first_missing fields v).
Proof.
  induction fields as [|k fields IH]; [exact I|].
  cbn [first_missing]. apply no_key_error_bind; [apply contains_no_key_error|].
  intros [] _; [exact IH | exact I].
Qed.

Lemma first_missing_item_field_no_key_error (l : list json) :
  forall i, no_key_error (first_missing_item_field i l).
Proof.
  induction l as [|a l IH]; intros i; [exact I|].
  cbn [first_missing_item_field].
  apply no_key_error_bind; [apply first_missing_no_key_error|].
  intros [k|] _; [exact I | apply IH].
Qed.

Lemma missing_or_falsy_no_key_error (k : string) (v : json) :
  no_key_error (missing_or_falsy k v).
Proof.
  destruct v as [| | | | s|l|m]; try exact I.
  - unfold missing_or_falsy. cbn [contains bind subscript].
    destruct (is_substring k s); exact I.
  - unfold missing_or_falsy. cbn [contains bind subscript].
    destruct (existsb (is_str k) l); exact I.
  - rewrite missing_or_falsy_object. exact I.
Qed.

Lemma no_items_no_key_error (v : json) : no_key_error (no_items v).
Proof.
  unfold no_items. destruct (negb (truthy v)); [exact I|].
  destruct v; exact I.
Qed.

Lemma dict_subscript_present (d : dict) (k : string) :
  missing_in d k = false -> exists v, dict_get d k = Some v /\ dict_subscript d k = Ok v.
Proof.
  unfold missing_in, dict_subscript.
  destruct (dict_get d k) as [v|]; [|discriminate].
  intros _. exists v. split; reflexivity.
Qed.

Lemma required_present (d : dict) :
  find (missing_in d) required_fields = None ->
  forall k, In k required_fields -> missing_in d k = false.
Proof. intros H k Hk. exact (find_none _ _ H k Hk). Qed.

(** X1.  A document that lacks one of the five top-level keys is rejected
    whatever else it holds: the validator names the first absent key in the
    order of [required_fields], and [submit_invoice] returns
    [invalid_schema] with that message and an untouched world. *)
Theorem missing_key_is_reported
    (repr : json -> string) (net : nat -> post_result) (now : nat -> string)
    (self : client) (d : dict) (k : string) (w : world) :
  In k required_fields ->
  dict_get d k = None ->
  exists first,
    find (missing_in d) required_fields = Some first /\
    validate_invoice_schema d = Ok (false, "Missing required field: " ++ first) /\
    submit_invoice repr net now self d w
    = (Ok (failure "invalid_schema" ("Missing required field: " ++ first)), w).
Proof.
  intros Hk Hnone.
  destruct (find (missing_in d) required_fields) as [first|] eqn:Hfind.
  - exists first. split; [reflexivity|].
    assert (Hv : validate_invoice_schema d
                 = Ok (false, "Missing required field: " ++ first)).
    { unfold validate_invoice_schema. rewrite first_missing_object.
      change (fun k0 => negb (present (dict_get d k0))) with (missing_in d).
      rewrite Hfind. reflexivity. }
    split; [exact Hv|]. apply submit_rejected. exact Hv.
  - pose proof (required_present d Hfind k Hk) as H.
    unfold missing_in in H. rewrite Hnone in H. discriminate.
Qed.

Lemma missing_key_is_reported_witness :
  In "items" required_fields /\
  dict_get headless_invoice "items" = None /\
  exists first,
    find (missing_in headless_invoice) required_fields = Some first /\
    validate_invoice_schema headless_invoice
    = Ok (false, "Missing required field: " ++ first) /\
    submit_invoice no_repr (always Timeout) midnight kitchen headless_invoice start
    = (Ok (failure "invalid_schema" ("Missing required field: " ++ first)), start).
Proof.
  assert (Hin : In "items" required_fields) by (cbn; tauto).
  split; [exact Hin|]. split; [reflexivity|].
  apply (missing_key_is_reported no_repr (always Timeout) midnight kitchen
           headless_invoice "items" start Hin).
  reflexivity.
Defined.

(** X2.  The validator either returns a verdict or raises [TypeError]: every
    subscript it takes is guarded by a membership test, so no [KeyError]
    escapes. *)
Theorem validator_raises_only_type_error (d : dict) :
  (exists verdict, validate_invoice_schema d = Ok verdict)
  \/ validate_invoice_schema d = Raise TypeError.
Proof.
  assert (H : no_key_error (validate_invoice_schema d)).
  { unfold validate_invoice_schema. rewrite first_missing_object. cbn [bind].
    change (fun k0 => negb (present (dict_get d k0))) with (missing_in d).
    destruct (find (missing_in d) required_fields) as [k|] eqn:Hfind; [exact I|].
    pose proof (required_present d Hfind) as Hall.
    destruct (dict_subscript_present d "business_info") as (b & _ & ->);
      [apply Hall; cbn; tauto|].
    destruct (dict_subscript_present d "items") as (items & _ & ->);
      [apply Hall; cbn; tauto|].
    destruct (dict_subscript_present d "summary") as (summary & _ & ->);
      [apply Hall; cbn; tauto|].
    cbn [bind].
    apply no_key_error_bind; [apply missing_or_falsy_no_key_error|].
    intros [] _; [exact I|].
    apply no_key_error_bind; [apply missing_or_falsy_no_key_error|].
    intros [] _; [exact I|].
    apply no_key_error_bind; [apply no_items_no_key_error|].
    intros [] _; [exact I|].
    apply no_key_error_bind; [destruct items; exact I|].
    intros elements _.
    apply no_key_error_bind; [apply first_missing_item_field_no_key_error|].
    intros [[i k]|] _; [exact I|].
    apply no_key_error_bind; [apply first_missing_no_key_error|].
    intros [k|] _; exact I. }
  destruct (validate_invoice_schema d) as [v|[|k]].
  - left. exists v. reflexivity.
  - right. reflexivity.
  - destruct H.
Qed.

(** X3.  What acceptance guarantees, on any document: the message is
    ["Validation successful"], the five keys are present, [business_info] is
    an object whose [tin] and [business_name] are truthy, [items] is truthy
    and each of its elements contains the four item fields, and [summary]
    contains the four summary fields, containment being Python's [in]. *)
Theorem accepted_invoice_shape (d : dict) (m : string) :
  validate_invoice_schema d = Ok (true, m) ->
  m = "Validation successful" /\
  (forall k, In k required_fields -> dict_contains k d = true) /\
  exists b items summary elements,
    dict_get d "business_info" = Some (JObj b) /\
    present_and_truthy (dict_get b "tin") = true /\
    present_and_truthy (dict_get b "business_name") = true /\
    dict_get d "items" = Some items /\
    truthy items = true /\
    iter items = Ok elements /\
    (forall item f, In item elements -> In f required_item_fields ->
       contains f item = Ok true) /\
    dict_get d "summary" = Some summary /\
    (forall f, In f required_summary_fields -> contains f summary = Ok true).
Proof.
  unfold validate_invoice_schema. rewrite first_missing_object. cbn [bind].
  change (fun k0 => negb (present (dict_get d k0))) with (missing_in d).
  destruct (find (missing_in d) required_fields) as [k|] eqn:Hfind; [discriminate|].
  pose proof (required_present d Hfind) as Hall.
  destruct (dict_subscript_present d "business_info") as (b & Hb & ->);
    [apply Hall; cbn; tauto|].
  destruct (dict_subscript_present d "items") as (items & Hitems & ->);
    [apply Hall; cbn; tauto|].
  destruct (dict_subscript_present d "summary") as (summary & Hsummary & ->);
    [apply Hall; cbn; tauto|].
  cbn [bind].
  destruct (missing_or_falsy "tin" b) as [[]|] eqn:Htin; cbn [bind]; try discriminate.
  destruct (missing_or_falsy "business_name" b) as [[]|] eqn:Hname;
    cbn [bind]; try discriminate.
  destruct (no_items items) as [[]|] eqn:Hnone; cbn [bind]; try discriminate.
  destruct (iter items) as [elements|] eqn:Hiter; cbn [bind]; try discriminate.
  destruct (first_missing_item_field 0 elements) as [[[i k]|]|] eqn:Hfields;
    cbn [bind]; try discriminate.
  destruct (first_missing required_summary_fields summary) as [[k|]|] eqn:Hsum;
    cbn [bind]; try discriminate.
  intros H. injection H as <-.
  split; [reflexivity|]. split.
  { intros k Hk. rewrite dict_contains_get.
    specialize (Hall k Hk). unfold missing_in in Hall.
    destruct (present (dict_get d k)); [reflexivity | discriminate]. }
  destruct (missing_or_falsy_passed _ _ Htin) as (bm & -> & Htin').
  destruct (missing_or_falsy_passed _ _ Hname) as (bm' & Hbm & Hname').
  injection Hbm as <-.
  exists bm, items, summary, elements.
  repeat split; try assumption.
  - unfold no_items in Hnone. destruct (truthy items); [reflexivity | discriminate].
  - intros item f Hitem Hf.
    apply (first_missing_found required_item_fields item); [|exact Hf].
    exact (first_missing_item_field_found _ _ Hfields item Hitem).
  - intros f Hf. exact (first_missing_found _ _ Hsum f Hf).
Qed.

Lemma accepted_invoice_shape_witness :
  validate_invoice_schema sample_invoice = Ok (true, "Validation successful") /\
  "Validation successful" = "Validation successful" /\
  (forall k, In k required_fields -> dict_contains k sample_invoice = true) /\
  exists b items summary elements,
    dict_get sample_invoice "business_info" = Some (JObj b) /\
    present_and_truthy (dict_get b "tin") = true /\
    present_and_truthy (dict_get b "business_name") = true /\
    dict_get sample_invoice "items" = Some items /\
    truthy items = true /\
    iter items = Ok elements /\
    (forall item f, In item elements -> In f required_item_fields ->
       contains f item = Ok true) /\
    dict_get sample_invoice "summary" = Some summary /\
    (forall f, In f required_summary_fields -> contains f summary = Ok true).
Proof.
  split; [reflexivity|].
  apply (accepted_invoice_shape sample_invoice "Validation successful").
  reflexivity.
Defined.

(** X4.  The validator reads the document through its five required keys
    only: two documents that hold the same values under them get the same
    result, so other keys and the order of the keys do not matter. *)
Theorem validator_reads_required_keys_only (d1 d2 : dict) :
  (forall k, In k required_fields -> dict_get d1 k = dict_get d2 k) ->
  validate_invoice_schema d1 = validate_invoice_schema d2.
Proof.
  intros H. unfold validate_invoice_schema, dict_subscript.
  rewrite !first_missing_object.
  rewrite (find_ext_in (fun k => negb (present (dict_get d1 k)))
             (fun k => negb (present (dict_get d2 k))) required_fields)
    by (intros k Hk; rewrite (H k Hk); reflexivity).
  rewrite (H "business_info"), (H "items"), (H "summary") by (cbn; tauto).
  reflexivity.
Qed.

Lemma validator_reads_required_keys_only_witness :
  (forall k, In k required_fields ->
     dict_get sample_invoice k = dict_get reordered_invoice k) /\
  validate_invoice_schema sample_invoice = validate_invoice_schema reordered_invoice.
Proof.
  assert (H : forall k, In k required_fields ->
     dict_get sample_invoice k = dict_get reordered_invoice k).
  { intros k Hk. cbn in Hk.
    destruct Hk as [<-|[<-|[<-|[<-|[<-|[]]]]]]; reflexivity. }
  split; [exact H|].
  apply (validator_reads_required_keys_only sample_invoice reordered_invoice H).
Defined.

(** ** More on a single submission *)

Ltac unfold_submit :=
  unfold submit_invoice, mbind, lift, ret, session_post, response_json, strftime, emit;
  cbn [posts trace fst snd negb].

(** X5.  [submit_invoice] raises exactly when the validator does, with the
    same exception and before anything is sent; on every other document it
    returns an outcome. *)
Theorem submit_raises_only_with_validator
    (repr : json -> string) (net : nat -> post_result) (now : nat -> string)
    (self : client) (d : dict) (w : world) :
  match validate_invoice_schema d with
  | Raise e => submit_invoice repr net now self d w = (Raise e, w)
  | Ok _ => exists o w', submit_invoice repr net now self d w = (Ok o, w')
  end.
Proof.
  destruct (validate_invoice_schema d) as [[[] msg]|e] eqn:Hv.
  - rewrite submit_frame.
    destruct (valid_attempt repr net now self d msg (posts w) Hv) as ([o Ho] & _).
    rewrite Ho. eexists _, _. reflexivity.
  - rewrite (submit_rejected repr net now self d msg w Hv). eexists _, _. reflexivity.
  - apply submit_raises. exact Hv.
Qed.

(** X6.  On a valid invoice, an answer with a JSON content type, a body
    that parses (to any JSON value) and a status code other than 200 and
    400 gives the failure [http_error_<code>]; the body is parsed before the
    status code is looked at. *)
Theorem other_status_is_http_error
    (repr : json -> string) (net : nat -> post_result) (now : nat -> string)
    (self : client) (d : dict) (m : string) (r : response) (body : json)
    (w : world) :
  validate_invoice_schema d = Ok (true, m) ->
  net (posts w) = Responded r ->
  is_json r = true ->
  json_body r = Some body ->
  status_code r <> 200 ->
  status_code r <> 400 ->
  submit_invoice repr net now self d w
  = (Ok (failure ("http_error_" ++ str_of_int (status_code r))
           ("Tax authority returned error: " ++ str_of_int (status_code r))),
     {| posts := S (posts w);
        trace := (trace w ++ [EvPost (base_url self ++ "/submit-invoice") d 10; EvJson])%list |}).
Proof.
  intros Hv Hnet Hjson Hbody H200 H400. unfold_submit.
  rewrite Hv. cbn [negb]. rewrite Hnet, Hjson, Hbody.
  apply Z.eqb_neq in H200, H400. rewrite H200, H400.
  cbn [posts trace]. rewrite <- app_assoc. reflexivity.
Qed.

Lemma other_status_is_http_error_witness :
  validate_invoice_schema sample_invoice = Ok (true, "Validation successful") /\
  always (Responded (json_response 503 (Some JNull))) (posts start)
  = Responded (json_response 503 (Some JNull)) /\
  is_json (json_response 503 (Some JNull)) = true /\
  json_body (json_response 503 (Some JNull)) = Some JNull /\
  status_code (json_response 503 (Some JNull)) <> 200 /\
  status_code (json_response 503 (Some JNull)) <> 400 /\
  submit_invoice no_repr (always (Responded (json_response 503 (Some JNull)))) midnight
    kitchen sample_invoice start
  = (Ok (failure ("http_error_" ++ str_of_int (status_code (json_response 503 (Some JNull))))
           ("Tax authority returned error: "
            ++ str_of_int (status_code (json_response 503 (Some JNull))))),
     {| posts := S (posts start);
        trace := (trace start
                  ++ [EvPost (base_url kitchen ++ "/submit-invoice") sample_invoice 10;
                      EvJson])%list |}).
Proof.
  assert (H200 : status_code (json_response 503 (Some JNull)) <> 200)
    by (cbn; lia).
  assert (H400 : status_code (json_response 503 (Some JNull)) <> 400)
    by (cbn; lia).
  repeat (split; [reflexivity|]). split; [exact H200|]. split; [exact H400|].
  apply (other_status_is_http_error no_repr
           (always (Responded (json_response 503 (Some JNull)))) midnight kitchen
           sample_invoice "Validation successful" (json_response 503 (Some JNull))
           JNull start); try reflexivity; assumption.
Defined.

(** X7.  On a valid invoice, an answer with a JSON content type whose body
    does not parse gives [invalid_json] whatever the status code, a
    server error included; that outcome is one the retry loop does not
    retry. *)
Theorem unparsable_body_is_invalid_json
    (repr : json -> string) (net : nat -> post_result) (now : nat -> string)
    (self : client) (d : dict) (m : string) (r : response) (w : world) :
  validate_invoice_schema d = Ok (true, m) ->
  net (posts w) = Responded r ->
  is_json r = true ->
  json_body r = None ->
  exists o w',
    submit_invoice repr net now self d w = (Ok o, w') /\
    o = failure "invalid_json" "Tax authority returned invalid JSON response" /\
    non_retryable o = true /\
    trace w' = (trace w ++ [EvPost (base_url self ++ "/submit-invoice") d 10; EvJson])%list.
Proof.
  intros Hv Hnet Hjson Hbody. unfold_submit.
  rewrite Hv. cbn [negb]. rewrite Hnet, Hjson, Hbody.
  eexists _, _. split; [reflexivity|]. split; [reflexivity|]. split; [reflexivity|].
  cbn [trace]. rewrite <- app_assoc. reflexivity.
Qed.

Lemma unparsable_body_is_invalid_json_witness :
  validate_invoice_schema sample_invoice = Ok (true, "Validation successful") /\
  always (Responded (json_response 503 None)) (posts start)
  = Responded (json_response 503 None) /\
  is_json (json_response 503 None) = true /\
  json_body (json_response 503 None) = None /\
  exists o w',
    submit_invoice no_repr (always (Responded (json_response 503 None))) midnight
      kitchen sample_invoice start = (Ok o, w') /\
    o = failure "invalid_json" "Tax authority returned invalid JSON response" /\
    non_retryable o = true /\
    trace w' = (trace start
                ++ [EvPost (base_url kitchen ++ "/submit-invoice") sample_invoice 10;
                    EvJson])%list.
Proof.
  repeat (split; [reflexivity|]).
  apply (unparsable_body_is_invalid_json no_repr
           (always (Responded (json_response 503 None))) midnight kitchen
           sample_invoice "Validation successful" (json_response 503 None) start);
    reflexivity.
Defined.

(** X8.  On a valid invoice, when [session.post] raises, the exception is
    caught: a timeout gives [timeout], a connection error gives
    [connection_error], any other exception gives [unexpected_error] with
    its description in the message.  The request is the only event and the
    failure is one the retry loop retries. *)
Theorem transport_exception_is_caught
    (repr : json -> string) (net : nat -> post_result) (now : nat -> string)
    (self : client) (d : dict) (m : string) (w : world) :
  validate_invoice_schema d = Ok (true, m) ->
  (forall r, net (posts w) <> Responded r) ->
  exists o,
    submit_invoice repr net now self d w
    = (Ok o, {| posts := S (posts w);
                trace := (trace w ++ [EvPost (base_url self ++ "/submit-invoice") d 10])%list |}) /\
    success o = false /\
    non_retryable o = false /\
    o = match net (posts w) with
        | Timeout => failure "timeout" "Tax authority server timeout"
        | ConnectionError =>
            failure "connection_error" "Cannot connect to tax authority service"
        | OtherException description =>
            failure "unexpected_error" ("Unexpected error occurred: " ++ description)
        | Responded _ => o
        end.
Proof.
  intros Hv Hnet. unfold_submit. rewrite Hv. cbn [negb].
  destruct (net (posts w)) as [r| | |description].
  - destruct (Hnet r eq_refl).
  - eexists. repeat split.
  - eexists. repeat split.
  - eexists. repeat split.
Qed.

Lemma transport_exception_is_caught_witness :
  validate_invoice_schema sample_invoice = Ok (true, "Validation successful") /\
  (forall r, always (OtherException "SSL handshake failed") (posts start) <> Responded r) /\
  exists o,
    submit_invoice no_repr (always (OtherException "SSL handshake failed")) midnight
      kitchen sample_invoice start
    = (Ok o, {| posts := S (posts start);
                trace := (trace start
                          ++ [EvPost (base_url kitchen ++ "/submit-invoice")
                                sample_invoice 10])%list |}) /\
    success o = false /\
    non_retryable o = false /\
    o = match always (OtherException "SSL handshake failed") (posts start) with
        | Timeout => failure "timeout" "Tax authority server timeout"
        | ConnectionError =>
            failure "connection_error" "Cannot connect to tax authority service"
        | OtherException description =>
            failure "unexpected_error" ("Unexpected error occurred: " ++ description)
        | Responded _ => o
        end.
Proof.
  assert (H : forall r,
             always (OtherException "SSL handshake failed") (posts start) <> Responded r)
    by (intros r; discriminate).
  split; [reflexivity|]. split; [exact H|].
  apply (transport_exception_is_caught no_repr
           (always (OtherException "SSL handshake failed")) midnight kitchen
           sample_invoice "Validation successful" start); [reflexivity | exact H].
Defined.

(** X9.  [success = True] is only ever returned for a valid invoice that was
    answered with status 200, a JSON content type and a body that parses to
    an object; the outcome then has no [error] key and carries that body as
    [data]. *)
Theorem success_needs_ok_object
    (repr : json -> string) (net : nat -> post_result) (now : nat -> string)
    (self : client) (d : dict) (w w' : world) (o : outcome) :
  submit_invoice repr net now self d w = (Ok o, w') ->
  success o = true ->
  exists m r fields,
    validate_invoice_schema d = Ok (true, m) /\
    net (posts w) = Responded r /\
    status_code r = 200 /\
    is_json r = true /\
    json_body r = Some (JObj fields) /\
    error o = None /\
    data o = Some (JObj fields).
Proof.
  unfold_submit.
  destruct (validate_invoice_schema d) as [[[] msg]|e]; cbn [negb];
    [| intros H; injection H as <- _; discriminate | discriminate].
  destruct (net (posts w)) as [r| | |description] eqn:Hnet;
    try (intros H; injection H as <- _; discriminate).
  destruct (is_json r) eqn:Hjson; [|intros H; injection H as <- _; discriminate].
  destruct (json_body r) as [body|] eqn:Hbody;
    [|intros H; injection H as <- _; discriminate].
  destruct (status_code r =? 200)%Z eqn:Hcode;
    [|destruct (status_code r =? 400)%Z]; try destruct body;
    intros H; injection H as <- _; try discriminate.
  intros _. exists msg, r, m. apply Z.eqb_eq in Hcode. repeat split; assumption.
Qed.

Lemma success_needs_ok_object_witness :
  exists o w',
    submit_invoice no_repr (always (Responded approved_response)) midnight kitchen
      sample_invoice start = (Ok o, w') /\
    success o = true /\
    exists m r fields,
      validate_invoice_schema sample_invoice = Ok (true, m) /\
      always (Responded approved_response) (posts start) = Responded r /\
      status_code r = 200 /\
      is_json r = true /\
      json_body r = Some (JObj fields) /\
      error o = None /\
      data o = Some (JObj fields).
Proof.
  eexists _, _. split; [vm_compute; reflexivity|]. split; [reflexivity|].
  eapply (success_needs_ok_object no_repr (always (Responded approved_response))
            midnight kitchen sample_invoice start);
    [vm_compute; reflexivity | reflexivity].
Defined.

(** X10.  Every outcome [submit_invoice] returns either has
    [success = True] and no [error] key, or has [success = False] and an
    [error] that is one of the seven fixed tags or [http_error_<code>] for a
    status code other than 200 and 400. *)
Theorem error_tags_of_submit
    (repr : json -> string) (net : nat -> post_result) (now : nat -> string)
    (self : client) (d : dict) (w : world) :
  match fst (submit_invoice repr net now self d w) with
  | Ok o =>
      if success o then error o = None
      else exists e,
          error o = Some e /\
          (In e fixed_error_tags
           \/ exists code, code <> 200 /\ code <> 400 /\
                           e = "http_error_" ++ str_of_int code)
  | Raise _ => True
  end.
Proof.
  assert (Hfixed : forall e m, In e fixed_error_tags ->
            let o := failure e m in
            if success o then error o = None
            else exists e', error o = Some e' /\
                 (In e' fixed_error_tags
                  \/ exists code, code <> 200 /\ code <> 400 /\
                                  e' = "http_error_" ++ str_of_int code)).
  { intros e m He. cbn. exists e. split; [reflexivity | left; exact He]. }
  unfold_submit.
  destruct (validate_invoice_schema d) as [[[] msg]|e]; cbn [negb fst];
    [| apply Hfixed; cbn; tauto | exact I].
  destruct (net (posts w)) as [r| | |description]; cbn [fst];
    try (apply Hfixed; cbn; tauto).
  destruct (is_json r); cbn [fst]; [|apply Hfixed; cbn; tauto].
  destruct (json_body r) as [body|]; cbn [fst]; [|apply Hfixed; cbn; tauto].
  destruct (status_code r =? 200)%Z eqn:H200;
    [|destruct (status_code r =? 400)%Z eqn:H400]; try destruct body; cbn [fst];
    try (apply Hfixed; cbn; tauto); try reflexivity;
    (cbn; eexists; split; [reflexivity|]; right;
     exists (status_code r); apply Z.eqb_neq in H200, H400; repeat split; assumption).
Qed.

(** X11.  One call of [submit_invoice] sends one request when the validator
    accepts the invoice, to [base_url + "/submit-invoice"], with the invoice
    as body and a timeout of 10, and calls [response.json()] once when the
    answer has a JSON content type; on any other document it leaves the
    world untouched.  It never sleeps. *)
Theorem effects_of_submit
    (repr : json -> string) (net : nat -> post_result) (now : nat -> string)
    (self : client) (d : dict) (w : world) :
  snd (submit_invoice repr net now self d w)
  = match validate_invoice_schema d with
    | Ok (true, _) =>
        {| posts := S (posts w);
           trace := (trace w ++ attempt_events net self d (posts w))%list |}
    | _ => w
    end.
Proof.
  unfold_submit. unfold attempt_events.
  destruct (validate_invoice_schema d) as [[[] msg]|e]; cbn [negb snd posts trace];
    try reflexivity.
  destruct (net (posts w)) as [r| | |description]; cbn [snd posts trace]; try reflexivity.
  destruct (is_json r); cbn [snd posts trace]; [|reflexivity].
  destruct (json_body r) as [body|]; cbn [snd posts trace];
    [|rewrite <- app_assoc; reflexivity].
  destruct (status_code r =? 200)%Z;
    [|destruct (status_code r =? 400)%Z]; try destruct body; cbn [snd posts trace];
    rewrite <- app_assoc; reflexivity.
Qed.

Lemma attempt_verdict
    (repr : json -> string) (net : nat -> post_result) (now : nat -> string)
    (self : client) (d : dict) (m : string) (k : nat) :
  validate_invoice_schema d = Ok (true, m) ->
  exists o,
    attempt_outcome repr net now self d k = Ok o /\
    outcome_verdict o = answer_verdict (net k).
Proof.
  intros Hv. unfold attempt_outcome, answer_verdict. unfold_submit. rewrite Hv.
  cbn [negb posts trace].
  destruct (net k) as [r| | |description]; cbn [fst];
    try (eexists; split; reflexivity).
  destruct (is_json r); cbn [fst]; [|eexists; split; reflexivity].
  destruct (json_body r) as [body|]; cbn [fst]; [|eexists; split; reflexivity].
  destruct (status_code r =? 200)%Z;
    [|destruct (status_code r =? 400)%Z]; try destruct body; cbn [fst];
    eexists; split; reflexivity.
Qed.


(** X12.  What the retry loop decides after an attempt on a valid invoice
    is a function of the answer alone: it succeeds on status 200 with an
    object body, gives up on a body that does not parse and on status 400
    with an object body, both under a JSON content type, and tries again on
    everything else (transport exceptions, non-JSON answers, other status
    codes, bodies that are not objects). *)
Theorem verdict_of_answer
    (repr : json -> string) (net : nat -> post_result) (now : nat -> string)
    (self : client) (d : dict) (m : string) (k : nat) :
  validate_invoice_schema d = Ok (true, m) ->
  exists o,
    attempt_outcome repr net now self d k = Ok o /\
    outcome_verdict o = answer_verdict (net k).
Proof.
  intros Hv. unfold attempt_outcome, answer_verdict. unfold_submit. rewrite Hv.
  cbn [negb posts trace].
  destruct (net k) as [r| | |description]; cbn [fst];
    try (eexists; split; reflexivity).
  destruct (is_json r); cbn [fst]; [|eexists; split; reflexivity].
  destruct (json_body r) as [body|]; cbn [fst]; [|eexists; split; reflexivity].
  destruct (status_code r =? 200)%Z;
    [|destruct (status_code r =? 400)%Z]; try destruct body; cbn [fst];
    eexists; split; reflexivity.
Qed.

Lemma verdict_of_answer_witness :
  validate_invoice_schema sample_invoice = Ok (true, "Validation successful") /\
  exists o,
    attempt_outcome no_repr (always (Responded (html_response 500))) midnight kitchen
      sample_invoice 0 = Ok o /\
    outcome_verdict o = answer_verdict (always (Responded (html_response 500)) 0%nat).
Proof.
  split; [reflexivity|].
  apply (verdict_of_answer no_repr (always (Responded (html_response 500))) midnight
           kitchen sample_invoice "Validation successful" 0).
  reflexivity.
Defined.

(** ** More on the retry loop *)

Section RetryFacts.

Variable repr : json -> string.
Variable net : nat -> post_result.
Variable now : nat -> string.
Variable self : client.
Variable invoice_data : dict.
Variable max_retries : Z.

Local Abbreviation loop := (retry_loop repr net now self invoice_data max_retries).
Local Abbreviation outcome_at := (attempt_outcome repr net now self invoice_data).
Local Abbreviation world_at := (attempt_world repr net now self invoice_data).
Local Abbreviation after := (after_attempt repr net now self invoice_data).
Local Abbreviation rested := (rested_world repr net now self invoice_data max_retries).

Lemma attempt_posts_cases (k : nat) :
  posts (world_at k)
  = match validate_invoice_schema invoice_data with
    | Ok (true, _) => S k
    | _ => k
    end.
Proof.
  unfold attempt_world. unfold_submit.
  destruct (validate_invoice_schema invoice_data) as [[[] msg]|e];
    cbn [negb snd posts trace]; try reflexivity.
  destruct (net k) as [r| | |description]; cbn [snd posts trace]; try reflexivity.
  destruct (is_json r); cbn [snd posts trace]; [|reflexivity].
  destruct (json_body r) as [body|]; cbn [snd posts trace]; [|reflexivity].
  destruct (status_code r =? 200)%Z;
    [|destruct (status_code r =? 400)%Z]; try destruct body; reflexivity.
Qed.

Lemma successful_attempt_valid (k : nat) (o : outcome) :
  outcome_at k = Ok o -> success o = true ->
  exists m, validate_invoice_schema invoice_data = Ok (true, m).
Proof.
  unfold attempt_outcome. unfold_submit.
  destruct (validate_invoice_schema invoice_data) as [[[] msg]|e];
    cbn [negb fst]; intros H Hs.
  - exists msg. reflexivity.
  - injection H as <-. discriminate.
  - discriminate.
Qed.


Lemma posts_after (w : world) : (posts w <= posts (after w) <= S (posts w))%nat.
Proof.
  unfold after_attempt. cbn [posts]. rewrite attempt_posts_cases.
  destruct (validate_invoice_schema invoice_data) as [[[] msg]|e]; lia.
Qed.

Lemma posts_rested_bounds (a : nat) (w : world) :
  (posts w <= posts (rested a w) <= S (posts w))%nat.
Proof.
  unfold rested_world.
  destruct (Z.of_nat a <? max_retries - 1)%Z; cbn [emit posts]; apply posts_after.
Qed.

(** The loop sends at most one request per index it runs through and stores
    at most one dictionary per index, plus the one built after the loop. *)
Lemma loop_bounds (range : list nat) :
  forall (attempts : list outcome) (w : world),
    (posts w <= posts (snd (loop range attempts w)) <= posts w + List.length range)%nat /\
    match fst (loop range attempts w) with
    | Ok r =>
        (List.length attempts < List.length (store r)
         <= List.length attempts + List.length range + 1)%nat
    | Raise _ => True
    end.
Proof.
  induction range as [|a rest IH]; intros attempts w.
  - rewrite loop_done. cbn [fst snd store List.length].
    rewrite length_app. cbn [List.length]. lia.
  - cbn [List.length].
    pose proof (posts_after w) as Hafter.
    pose proof (posts_rested_bounds a w) as Hrested.
    destruct (outcome_at (posts w)) as [o|e] eqn:Ho.
    2:{ rewrite (loop_raises repr net now self invoice_data max_retries
                   a rest attempts w e Ho).
        cbn [fst snd]. split; [lia | exact I]. }
    destruct (success o) eqn:Hs; [|destruct (non_retryable o) eqn:Hn].
    1,2:
      (rewrite (loop_stops_here repr net now self invoice_data max_retries
                  a rest attempts w o Ho) by (rewrite ?Hs, ?Hn; tauto);
       cbn [fst snd store]; rewrite length_app; cbn [List.length]; lia).
    rewrite (loop_goes_on repr net now self invoice_data max_retries
               a rest attempts w o Ho Hs Hn).
    destruct (IH (attempts ++ [set_attempt_number (Z.of_nat a + 1) o])%list (rested a w))
      as [Hposts Hstore].
    split; [lia|].
    destruct (fst (loop rest (attempts ++ [set_attempt_number (Z.of_nat a + 1) o])%list
                     (rested a w))) as [r|e]; [|exact I].
    rewrite length_app in Hstore. cbn [List.length] in Hstore. lia.
Qed.



Lemma total_app (l1 l2 : list Z) : total (l1 ++ l2)%list = total l1 + total l2.
Proof.
  unfold total. induction l1 as [|x l1 IH]; cbn [app fold_right]; [reflexivity|].
  rewrite IH. lia.
Qed.

Lemma total_backoff (k : nat) :
  total (map backoff (seq 0 k)) = 2 ^ Z.of_nat k - 1.
Proof.
  induction k as [|k IH]; [reflexivity|].
  rewrite seq_S, map_app, total_app, IH. cbn [map Nat.add]. unfold total, backoff.
  cbn [fold_right]. rewrite Nat2Z.inj_succ, Z.pow_succ_r by lia. lia.
Qed.

End RetryFacts.

(** X13.  When attempts 1 to [n - 1] fail with a retryable error and
    attempt [n] succeeds, the run makes exactly [n] attempts and sends
    exactly [n] requests, and returns the dictionary of attempt [n] with
    [attempt_number = n], [total_attempts = n] and [all_attempts] listing
    the [n] stored dictionaries, itself last. *)
Theorem retry_returns_first_success
    (repr : json -> string) (net : nat -> post_result) (now : nat -> string)
    (self : client) (invoice_data : dict) (max_retries : Z) (w : world)
    (n : nat) (o : outcome) :
  (1 <= n)%nat ->
  Z.of_nat n <= max_retries ->
  (forall k, (k < n - 1)%nat ->
     exists o',
       attempt_outcome repr net now self invoice_data (posts w + k) = Ok o' /\
       success o' = false /\ non_retryable o' = false) ->
  attempt_outcome repr net now self invoice_data (posts w + (n - 1)) = Ok o ->
  success o = true ->
  exists r w',
    submit_invoice_with_retry repr net now self invoice_data max_retries w = (Ok r, w') /\
    List.length (store r) = n /\
    posts w' = (posts w + n)%nat /\
    returned r = (n - 1)%nat /\
    returned_outcome r
    = Some (set_totals (Z.of_nat n) (seq 0 n) (set_attempt_number (Z.of_nat n) o)).
Proof.
  intros Hn Hmax Hbefore Ho Hs.
  destruct n as [|n]; [lia|]. cbn [Nat.sub] in *. rewrite Nat.sub_0_r in *.
  destruct (loop_through repr net now self invoice_data max_retries (posts w) n 0 []
              (n :: seq (S n) (Z.to_nat max_retries - S n)) w)
    as (cells & w' & Hrun & Hposts & Hlen & _).
  - lia.
  - intros k Hk. apply Hbefore. lia.
  - unfold submit_invoice_with_retry.
    replace (seq 0 (Z.to_nat max_retries))
      with (seq 0 n ++ n :: seq (S n) (Z.to_nat max_retries - S n))%list.
    2:{ rewrite cons_seq, <- seq_app. f_equal. lia. }
    rewrite Hrun. cbn [app].
    rewrite Nat.add_0_r in Hposts. rewrite <- Hposts in Ho.
    rewrite (loop_stops_here repr net now self invoice_data max_retries
               n _ cells w' o Ho (or_introl Hs)).
    rewrite Hlen.
    replace (Z.of_nat n + 1) with (Z.of_nat (S n)) by lia.
    eexists _, _. split; [reflexivity|].
    unfold returned_outcome. cbn [store returned].
    rewrite nth_error_app2, Hlen, Nat.sub_diag by lia.
    split; [rewrite length_app, Hlen; cbn [List.length]; lia|].
    split.
    { unfold after_attempt. cbn [posts]. rewrite attempt_posts_cases.
      destruct (successful_attempt_valid repr net now self invoice_data _ _ Ho Hs)
        as [m ->]. lia. }
    split; reflexivity.
Qed.

Lemma retry_returns_first_success_witness :
  (1 <= 2)%nat /\
  Z.of_nat 2 <= 3 /\
  (forall k, (k < 2 - 1)%nat ->
     exists o',
       attempt_outcome no_repr second_time_lucky midnight kitchen sample_invoice
         (posts start + k) = Ok o' /\
       success o' = false /\ non_retryable o' = false) /\
  (exists o,
     attempt_outcome no_repr second_time_lucky midnight kitchen sample_invoice
       (posts start + (2 - 1)) = Ok o /\
     success o = true /\
     exists r w',
       submit_invoice_with_retry no_repr second_time_lucky midnight kitchen
         sample_invoice 3 start = (Ok r, w') /\
       List.length (store r) = 2%nat /\
       posts w' = (posts start + 2)%nat /\
       returned r = (2 - 1)%nat /\
       returned_outcome r
       = Some (set_totals (Z.of_nat 2) (seq 0 2) (set_attempt_number (Z.of_nat 2) o))).
Proof.
  assert (Hfirst : forall k, (k < 2 - 1)%nat ->
     exists o',
       attempt_outcome no_repr second_time_lucky midnight kitchen sample_invoice
         (posts start + k) = Ok o' /\
       success o' = false /\ non_retryable o' = false).
  { intros k Hk. assert (k = 0%nat) as -> by (cbn in Hk; lia).
    eexists. split; [vm_compute; reflexivity|]. split; reflexivity. }
  split; [lia|]. split; [lia|]. split; [exact Hfirst|].
  eexists. split; [vm_compute; reflexivity|]. split; [reflexivity|].
  apply (retry_returns_first_success no_repr second_time_lucky midnight kitchen
           sample_invoice 3 start 2);
    [lia | lia | exact Hfirst | vm_compute; reflexivity | reflexivity].
Defined.

(** X14.  [submit_invoice_with_retry] raises only when at least one attempt
    is made and the validator raises; the exception is the validator's and
    the world is untouched.  In every other case it returns. *)
Theorem retry_raises_only_with_validator
    (repr : json -> string) (net : nat -> post_result) (now : nat -> string)
    (self : client) (invoice_data : dict) (max_retries : Z) (w : world) :
  match validate_invoice_schema invoice_data with
  | Raise e =>
      if (1 <=? max_retries)%Z
      then submit_invoice_with_retry repr net now self invoice_data max_retries w
           = (Raise e, w)
      else exists r,
          submit_invoice_with_retry repr net now self invoice_data max_retries w
          = (Ok r, w)
  | Ok _ =>
      exists r w',
        submit_invoice_with_retry repr net now self invoice_data max_retries w
        = (Ok r, w')
  end.
Proof.
  unfold submit_invoice_with_retry.
  destruct (Z.to_nat max_retries) as [|n] eqn:Hn.
  - assert (Hle : (1 <=? max_retries)%Z = false) by (apply Z.leb_gt; lia).
    rewrite Hle. cbn [seq].
    destruct (validate_invoice_schema invoice_data);
      rewrite loop_done; eexists; try eexists; reflexivity.
  - assert (Hle : (1 <=? max_retries)%Z = true) by (apply Z.leb_le; lia).
    rewrite Hle.
    destruct (validate_invoice_schema invoice_data) as [[[] msg]|e] eqn:Hv.
    + destruct (loop_schedule repr net now self invoice_data max_retries msg Hv
                  n 0 [] w eq_refl Hn) as (r & w' & _ & _ & _ & Hrun & _).
      exists r, w'. exact Hrun.
    + cbn [seq retry_loop]. unfold mbind.
      rewrite (submit_rejected repr net now self invoice_data msg w Hv).
      eexists _, _. reflexivity.
    + cbn [seq retry_loop]. unfold mbind.
      rewrite (submit_raises repr net now self invoice_data e w Hv). reflexivity.
Qed.

(** X15.  With [max_retries <= 0] no attempt is made, as for 0, and the
    returned dictionary reports the number it was given: a negative
    [max_retries] comes back as a negative [total_attempts]. *)
Theorem non_positive_retries
    (repr : json -> string) (net : nat -> post_result) (now : nat -> string)
    (self : client) (invoice_data : dict) (max_retries : Z) (w : world) :
  max_retries <= 0 ->
  submit_invoice_with_retry repr net now self invoice_data max_retries w
  = (Ok {| store :=
             [ {| success := false; status := JStr "failed";
                  error := Some "all_retries_failed";
                  message := JStr ("All " ++ str_of_int max_retries
                                   ++ " retry attempts failed");
                  data := None; tax_authority_id := None; submitted_at := None;
                  attempt_number := None;
                  total_attempts := Some max_retries;
                  all_attempts := Some [] |} ];
           returned := 0 |},
     w).
Proof.
  intros Hmax. unfold submit_invoice_with_retry.
  replace (Z.to_nat max_retries) with 0%nat by lia. reflexivity.
Qed.

Lemma non_positive_retries_witness :
  -2 <= 0 /\
  submit_invoice_with_retry no_repr (always Timeout) midnight kitchen sample_invoice
    (-2) start
  = (Ok {| store :=
             [ {| success := false; status := JStr "failed";
                  error := Some "all_retries_failed";
                  message := JStr ("All " ++ str_of_int (-2)
                                   ++ " retry attempts failed");
                  data := None; tax_authority_id := None; submitted_at := None;
                  attempt_number := None;
                  total_attempts := Some (-2);
                  all_attempts := Some [] |} ];
           returned := 0 |},
     start).
Proof.
  split; [lia|].
  apply (non_positive_retries no_repr (always Timeout) midnight kitchen
           sample_invoice (-2) start).
  lia.
Defined.

(** X16.  A run never sends more than [max_retries] requests and never
    makes more than [max_retries] attempts: the store holds at most
    [max_retries] attempt dictionaries and the one built after the loop. *)
Theorem retry_is_bounded
    (repr : json -> string) (net : nat -> post_result) (now : nat -> string)
    (self : client) (invoice_data : dict) (max_retries : Z) (w : world) :
  let run := submit_invoice_with_retry repr net now self invoice_data max_retries w in
  (posts w <= posts (snd run) <= posts w + Z.to_nat max_retries)%nat /\
  match fst run with
  | Ok r => (1 <= List.length (store r) <= Z.to_nat max_retries + 1)%nat
  | Raise _ => True
  end.
Proof.
  intros run. subst run. unfold submit_invoice_with_retry.
  destruct (loop_bounds repr net now self invoice_data max_retries
              (seq 0 (Z.to_nat max_retries)) [] w) as [Hposts Hstore].
  rewrite length_seq in Hposts, Hstore.
  split; [exact Hposts|].
  destruct (fst (retry_loop repr net now self invoice_data max_retries
                   (seq 0 (Z.to_nat max_retries)) [] w)); [|exact I].
  cbn [List.length] in Hstore. lia.
Qed.



(** X18.  For [max_retries >= 1], a run that reports [m] attempts has slept
    [2^(m-1) - 1] time units in all, hence at most [2^(max_retries-1) - 1];
    a run that raises has not slept. *)
Theorem total_delay_of_a_run
    (repr : json -> string) (net : nat -> post_result) (now : nat -> string)
    (self : client) (invoice_data : dict) (max_retries : Z) (w : world) :
  1 <= max_retries ->
  let run := submit_invoice_with_retry repr net now self invoice_data max_retries w in
  let slept := total (delays (appended w (snd run))) in
  match fst run with
  | Raise _ => slept = 0
  | Ok r =>
      exists final m,
        returned_outcome r = Some final /\
        total_attempts final = Some (Z.of_nat m) /\
        slept = 2 ^ (Z.of_nat m - 1) - 1 /\
        slept <= 2 ^ (max_retries - 1) - 1
  end.
Proof.
  intros Hmax run slept. subst slept run.
  unfold submit_invoice_with_retry.
  destruct (Z.to_nat max_retries) as [|n] eqn:Hn; [lia|].
  destruct (validate_invoice_schema invoice_data) as [[[] msg]|e] eqn:Hvalid.
  - destruct (loop_schedule repr net now self invoice_data max_retries msg Hvalid
                n 0 [] w eq_refl Hn)
      as (r & w' & new & k & final & Hrun & Htrace & Hk & Hret & Htotal & _ & Hd).
    rewrite Hrun. cbn [fst snd]. rewrite (appended_app w w' new Htrace), Hd.
    rewrite total_backoff.
    exists final, (S k). split; [exact Hret|]. split; [exact Htotal|].
    replace (Z.of_nat (S k) - 1) with (Z.of_nat k) by lia.
    split; [reflexivity|].
    assert (2 ^ Z.of_nat k <= 2 ^ (max_retries - 1))
      by (apply Z.pow_le_mono_r; lia).
    lia.
  - cbn [seq retry_loop]. unfold mbind.
    rewrite (submit_rejected repr net now self invoice_data msg w Hvalid).
    cbn [fst snd success non_retryable error failure set_attempt_number existsb
           non_retryable_errors String.eqb Ascii.eqb Bool.eqb orb ret].
    unfold appended. rewrite skipn_all.
    eexists _, 1%nat. split; [reflexivity|]. split; [reflexivity|].
    split; [reflexivity|]. cbn [delays flat_map total fold_right].
    assert (2 ^ 0 <= 2 ^ (max_retries - 1)) by (apply Z.pow_le_mono_r; lia).
    lia.
  - cbn [seq retry_loop]. unfold mbind.
    rewrite (submit_raises repr net now self invoice_data e w Hvalid).
    cbn [fst snd]. unfold appended. rewrite skipn_all. reflexivity.
Qed.

Lemma total_delay_of_a_run_witness :
  1 <= 4 /\
  total (delays (appended start
                   (snd (submit_invoice_with_retry no_repr (always Timeout) midnight
                           kitchen sample_invoice 4 start)))) = 7 /\
  let run := submit_invoice_with_retry no_repr (always Timeout) midnight kitchen
               sample_invoice 4 start in
  let slept := total (delays (appended start (snd run))) in
  match fst run with
  | Raise _ => slept = 0
  | Ok r =>
      exists final m,
        returned_outcome r = Some final /\
        total_attempts final = Some (Z.of_nat m) /\
        slept = 2 ^ (Z.of_nat m - 1) - 1 /\
        slept <= 2 ^ (4 - 1) - 1
  end.
Proof.
  split; [lia|]. split; [vm_compute; reflexivity|].
  apply (total_delay_of_a_run no_repr (always Timeout) midnight kitchen sample_invoice
           4 start).
  lia.
Defined.

(** X19.  On a valid invoice, when every one of the [max_retries] requests
    gets an answer the loop tries again on (a transport exception, a
    non-JSON answer, a status code other than 200 and 400, a body that is
    no object), the run sends exactly [max_retries] requests, sleeps
    [2^0, ..., 2^(max_retries-2)] between them and returns
    [all_retries_failed]. *)
Theorem persistent_failure_exhausts
    (repr : json -> string) (net : nat -> post_result) (now : nat -> string)
    (self : client) (invoice_data : dict) (max_retries : Z) (msg : string)
    (w : world) :
  validate_invoice_schema invoice_data = Ok (true, msg) ->
  1 <= max_retries ->
  (forall k, (k < Z.to_nat max_retries)%nat ->
     answer_verdict (net (posts w + k)%nat) = TriesAgain) ->
  exists r w',
    submit_invoice_with_retry repr net now self invoice_data max_retries w = (Ok r, w') /\
    returned_outcome r
    = Some (all_retries_failed max_retries (seq 0 (Z.to_nat max_retries))) /\
    posts w' = (posts w + Z.to_nat max_retries)%nat /\
    timeline (appended w w') = schedule (Z.to_nat max_retries) /\
    delays (appended w w') = map backoff (seq 0 (Z.to_nat max_retries - 1)).
Proof.
  intros Hvalid Hmax Hall.
  destruct (Z.to_nat max_retries) as [|n] eqn:Hn; [lia|].
  destruct (loop_through repr net now self invoice_data max_retries (posts w)
              (S n) 0 [] [] w)
    as (cells & w' & Hrun & Hposts & Hlen & _).
  - lia.
  - intros k Hk.
    destruct (attempt_verdict repr net now self invoice_data msg (posts w + k) Hvalid)
      as (o & Ho & Hv).
    rewrite (Hall k ltac:(lia)) in Hv. exists o. split; [exact Ho|].
    unfold outcome_verdict in Hv.
    destruct (success o); [discriminate|]. destruct (non_retryable o); [discriminate|].
    split; reflexivity.
  - destruct (loop_schedule repr net now self invoice_data max_retries msg Hvalid
                n 0 [] w eq_refl Hn)
      as (r2 & w2 & new & k & final & Hrun2 & Htrace & Hk & Hret & Htotal & Hline & Hd).
    rewrite app_nil_r in Hrun. rewrite Hrun, loop_done in Hrun2.
    injection Hrun2 as <- <-.
    unfold submit_invoice_with_retry. rewrite Hn, Hrun, loop_done.
    cbn [app] in *. unfold returned_outcome in *. cbn [store returned] in *.
    rewrite nth_error_app2, Nat.sub_diag in Hret by lia.
    cbn [nth_error] in Hret. injection Hret as <-.
    cbn [total_attempts all_retries_failed] in Htotal.
    assert (k = n) as -> by (injection Htotal as Htotal; lia).
    eexists _, _. split; [reflexivity|]. cbn [store returned].
    rewrite nth_error_app2, Nat.sub_diag by lia. cbn [nth_error].
    rewrite Hlen. split; [reflexivity|]. split; [lia|].
    rewrite (appended_app w w' new Htrace).
    split; [exact Hline|].
    cbn [Nat.sub]. rewrite Nat.sub_0_r. exact Hd.
Qed.

Lemma persistent_failure_exhausts_witness :
  validate_invoice_schema sample_invoice = Ok (true, "Validation successful") /\
  1 <= 3 /\
  (forall k, (k < Z.to_nat 3)%nat ->
     answer_verdict (always (Responded (html_response 502)) (posts start + k)%nat)
     = TriesAgain) /\
  exists r w',
    submit_invoice_with_retry no_repr (always (Responded (html_response 502))) midnight
      kitchen sample_invoice 3 start = (Ok r, w') /\
    returned_outcome r = Some (all_retries_failed 3 (seq 0 (Z.to_nat 3))) /\
    posts w' = (posts start + Z.to_nat 3)%nat /\
    timeline (appended start w') = schedule (Z.to_nat 3) /\
    delays (appended start w') = map backoff (seq 0 (Z.to_nat 3 - 1)).
Proof.
  assert (Hall : forall k, (k < Z.to_nat 3)%nat ->
     answer_verdict (always (Responded (html_response 502)) (posts start + k)%nat)
     = TriesAgain) by (intros k _; reflexivity).
  split; [reflexivity|]. split; [lia|]. split; [exact Hall|].
  apply (persistent_failure_exhausts no_repr (always (Responded (html_response 502)))
           midnight kitchen sample_invoice 3 "Validation successful" start);
    [reflexivity | lia | exact Hall].
Defined.

(** ** The product API *)

Module ProductFacts.
Import Products.

(** *** The table *)

Lemma db_get_set_same (d : db) (k : string) (p : Product) :
  db_get (db_set d k p) k = Some p.
Proof.
  induction d as [|[k' p'] d IH]; cbn [db_set db_get].
  - rewrite String.eqb_refl. reflexivity.
  - destruct (String.eqb k k') eqn:E; cbn [db_get]; rewrite E; [reflexivity | exact IH].
Qed.

Lemma db_get_set_other (d : db) (k k' : string) (p : Product) :
  k' <> k -> db_get (db_set d k p) k' = db_get d k'.
Proof.
  intros Hne. apply String.eqb_neq in Hne.
  induction d as [|[k0 p0] d IH]; cbn [db_set db_get].
  - rewrite Hne. reflexivity.
  - destruct (String.eqb k k0) eqn:E; cbn [db_get].
    + apply String.eqb_eq in E. subst k0. rewrite Hne. reflexivity.
    + destruct (String.eqb k' k0); [reflexivity | exact IH].
Qed.

Lemma db_get_in_keys (d : db) (k : string) :
  db_get d k = None <-> ~ In k (map fst d).
Proof.
  induction d as [|[k' p'] d IH]; cbn [db_get map fst In].
  - split; [intros _ [] | reflexivity].
  - destruct (String.eqb k k') eqn:E.
    + apply String.eqb_eq in E. subst k'. split; [discriminate | intros H; destruct H; left; reflexivity].
    + apply String.eqb_neq in E. rewrite IH. split.
      * intros H [Heq|Hin]; [congruence | exact (H Hin)].
      * intros H Hin. apply H. right. exact Hin.
Qed.

Lemma db_set_fresh (d : db) (k : string) (p : Product) :
  db_get d k = None -> db_set d k p = (d ++ [(k, p)])%list.
Proof.
  induction d as [|[k' p'] d IH]; cbn [db_get db_set app]; [reflexivity|].
  destruct (String.eqb k k'); [discriminate|].
  intros H. rewrite (IH H). reflexivity.
Qed.

Lemma db_set_keys_present (d : db) (k : string) (p : Product) :
  db_get d k <> None -> map fst (db_set d k p) = map fst d.
Proof.
  induction d as [|[k' p'] d IH]; cbn [db_get db_set map fst].
  - intros H. destruct (H eq_refl).
  - destruct (String.eqb k k'); cbn [map fst]; [reflexivity|].
    intros H. rewrite (IH H). reflexivity.
Qed.

Lemma db_get_del_other (d : db) (k k' : string) :
  k' <> k -> db_get (db_del d k) k' = db_get d k'.
Proof.
  intros Hne. apply String.eqb_neq in Hne.
  induction d as [|[k0 p0] d IH]; cbn [db_del db_get]; [reflexivity|].
  destruct (String.eqb k k0) eqn:E; cbn [db_get].
  - apply String.eqb_eq in E. subst k0. rewrite Hne. reflexivity.
  - destruct (String.eqb k' k0); [reflexivity | exact IH].
Qed.

Lemma db_get_del_same (d : db) (k : string) :
  NoDup (map fst d) -> db_get (db_del d k) k = None.
Proof.
  induction d as [|[k0 p0] d IH]; cbn [db_del db_get map fst]; [reflexivity|].
  intros Hnd. inversion Hnd as [|? ? Hnotin Hnd']; subst.
  destruct (String.eqb k k0) eqn:E; cbn [db_get].
  - apply String.eqb_eq in E. subst k0. apply db_get_in_keys. exact Hnotin.
  - rewrite E. exact (IH Hnd').
Qed.

Lemma db_del_length (d : db) (k : string) :
  db_get d k <> None -> S (List.length (db_del d k)) = List.length d.
Proof.
  induction d as [|[k0 p0] d IH]; cbn [db_del db_get List.length].
  - intros H. destruct (H eq_refl).
  - destruct (String.eqb k k0); cbn [List.length]; [reflexivity|].
    intros H. rewrite (IH H). reflexivity.
Qed.

Lemma db_del_keys (d : db) (k k' : string) :
  In k' (map fst (db_del d k)) -> In k' (map fst d).
Proof.
  induction d as [|[k0 p0] d IH]; cbn [db_del map fst In]; [tauto|].
  destruct (String.eqb k k0); cbn [map fst In]; [tauto|].
  intros [H|H]; [left; exact H | right; exact (IH H)].
Qed.

Lemma values_del (d : db) (k : string) :
  db_ok d ->
  values (db_del d k) = filter (fun p => negb (String.eqb k (id p))) (values d).
Proof.
  unfold values. intros [Hnd Hall].
  induction d as [|[k0 p0] d IH]; cbn [db_del map snd filter]; [reflexivity|].
  cbn [map fst] in Hnd. inversion Hnd as [|? ? Hnotin Hnd']; subst.
  inversion Hall as [|? ? [Hid _] Hall']; subst. cbn [fst snd] in Hid.
  rewrite Hid. destruct (String.eqb k k0) eqn:E; cbn [negb map snd].
  - apply String.eqb_eq in E.
    assert (Hkeep : forall p, In p (map snd d) ->
              (fun _ : Product => true) p = negb (String.eqb k (id p))).
    { intros p Hp. apply in_map_iff in Hp as ([kp pp] & Hp & Hin). cbn [snd] in Hp.
      rewrite Forall_forall in Hall'. destruct (Hall' _ Hin) as [Hidp _].
      cbn [fst snd] in Hidp. rewrite <- Hp, Hidp.
      symmetry. apply negb_true_iff, String.eqb_neq. intros Hk.
      apply Hnotin. rewrite <- E, Hk.
      apply in_map_iff. exists (kp, pp). split; [reflexivity | exact Hin]. }
    rewrite <- (filter_ext_in _ _ _ Hkeep).
    clear. induction (map snd d) as [|x l IHl]; cbn [filter]; congruence.
  - rewrite (IH Hnd' Hall'). reflexivity.
Qed.

Lemma db_ok_set (d : db) (k : string) (p : Product) :
  db_ok d -> id p = k -> valid_base (base p) = true -> db_ok (db_set d k p).
Proof.
  intros [Hnd Hall] Hid Hvalid. split.
  - destruct (db_get d k) as [old|] eqn:Hget.
    + rewrite db_set_keys_present by congruence. exact Hnd.
    + rewrite (db_set_fresh d k p Hget), map_app. cbn [map fst].
      apply NoDup_app; [exact Hnd | constructor; [intros [] | constructor] |].
      intros x Hx [Heq|[]]. apply db_get_in_keys in Hget. rewrite <- Heq in Hx.
      exact (Hget Hx).
  - clear Hnd. induction Hall as [|[k0 p0] d Hhead Htail IH]; cbn [db_set].
    + constructor; [split; assumption | constructor].
    + destruct (String.eqb k k0) eqn:E.
      * apply String.eqb_eq in E. rewrite <- E.
        constructor; [split; assumption | exact Htail].
      * constructor; [exact Hhead | exact IH].
Qed.

Lemma db_ok_del (d : db) (k : string) : db_ok d -> db_ok (db_del d k).
Proof.
  intros [Hnd Hall]. split.
  - induction d as [|[k0 p0] d IH]; cbn [db_del map fst]; [constructor|].
    cbn [map fst] in Hnd. inversion Hnd as [|? ? Hnotin Hnd']; subst.
    inversion Hall as [|? ? _ Hall']; subst.
    destruct (String.eqb k k0); cbn [map fst]; [exact Hnd'|].
    constructor; [|exact (IH Hnd' Hall')].
    intros Hin. apply Hnotin. exact (db_del_keys d k k0 Hin).
  - clear Hnd. induction d as [|[k0 p0] d IH]; cbn [db_del]; [constructor|].
    inversion Hall as [|? ? Hhead Htail]; subst.
    destruct (String.eqb k k0); [exact Htail|].
    constructor; [exact Hhead | exact (IH Htail)].
Qed.

Lemma db_ok_empty : db_ok [].
Proof. split; constructor. Qed.

Lemma Product_init_new (product_id now_iso : string) (product : ProductCreate) :
  Product_init (new_product_item product_id now_iso product)
  = if valid_base product
    then Done {| base := product; id := product_id;
                 created_at := now_iso; updated_at := now_iso |}
    else Failed ValidationError.
Proof.
  unfold Product_init, new_product_item, valid_base. cbn.
  destruct product as [n q c k]; cbn.
  destruct (valid_name n && valid_price q && valid_stock k); reflexivity.
Qed.

Lemma Product_init_update (old : Product) (u : Update.ProductUpdate) (stamp : string) :
  valid_base (base old) = true ->
  Product_init (set_updated_at stamp (apply_update (model_dump old) u))
  = if rebuild_fails u then Failed ValidationError else Done (updated old u stamp).
Proof.
  unfold valid_base. intros H.
  apply andb_true_iff in H as [H Hs]. apply andb_true_iff in H as [Hn Hp].
  destruct u as [[|[n|]] [|[q|]] [|[c|]] [|[k|]]];
    unfold Product_init, rebuild_fails, updated;
    cbn [set_updated_at apply_update model_dump pick item_name item_price
           item_category item_stock_quantity item_id item_created_at item_updated_at
           Update.name Update.price Update.category Update.stock_quantity];
    rewrite ?Hn, ?Hp, ?Hs;
    repeat match goal with
           | |- context [valid_name ?x] => destruct (valid_name x)
           | |- context [valid_price ?x] => destruct (valid_price x)
           | |- context [valid_stock ?x] => destruct (valid_stock x)
           end;
    reflexivity.
Qed.

Lemma Product_init_rejects (old : Product) (u : Update.ProductUpdate) (stamp : string) :
  rebuild_fails u = true ->
  Product_init (set_updated_at stamp (apply_update (model_dump old) u))
  = Failed ValidationError.
Proof.
  destruct u as [[|[n|]] [|[q|]] [|[c|]] [|[k|]]];
    unfold Product_init, rebuild_fails;
    cbn [set_updated_at apply_update model_dump pick item_name item_price
           item_category item_stock_quantity item_id item_created_at item_updated_at
           Update.name Update.price Update.category Update.stock_quantity];
    repeat match goal with
           | |- context [valid_name ?x] => destruct (valid_name x)
           | |- context [valid_price ?x] => destruct (valid_price x)
           | |- context [valid_stock ?x] => destruct (valid_stock x)
           end;
    cbn [negb orb andb]; intros H; try discriminate H; reflexivity.
Qed.

Lemma updated_valid (old : Product) (u : Update.ProductUpdate) (stamp : string) :
  valid_base (base old) = true ->
  rebuild_fails u = false ->
  valid_base (base (updated old u stamp)) = true.
Proof.
  unfold valid_base. intros H.
  apply andb_true_iff in H as [H Hs]. apply andb_true_iff in H as [Hn Hp].
  destruct u as [[|[n|]] [|[q|]] [|[c|]] [|[k|]]];
    unfold rebuild_fails, updated;
    cbn [base name price category stock_quantity
           Update.name Update.price Update.category Update.stock_quantity];
    rewrite ?Hn, ?Hp, ?Hs;
    repeat match goal with
           | |- context [valid_name ?x] => destruct (valid_name x)
           | |- context [valid_price ?x] => destruct (valid_price x)
           | |- context [valid_stock ?x] => destruct (valid_stock x)
           end;
    cbn [negb orb andb]; intros Hf; try discriminate Hf; reflexivity.
Qed.

Lemma db_ok_valid (d : db) (k : string) (p : Product) :
  db_ok d -> db_get d k = Some p -> id p = k /\ valid_base (base p) = true.
Proof.
  intros [_ Hall]. induction Hall as [|[k0 p0] d Hhead Htail IH]; cbn [db_get].
  - discriminate.
  - destruct (String.eqb k k0) eqn:E.
    + apply String.eqb_eq in E. intros H. injection H as <-.
      cbn [fst snd] in Hhead. rewrite E. exact Hhead.
    + exact IH.
Qed.

Ltac run_handler :=
  unfold create_product, read_product_by_id, update_product, delete_product,
    not_found, raise, hbind, new_id, get_iso_now, lookup, put, delete_key,
    lift_reply, answer,
    db_contains;
  cbn [products_db uuid_calls clock_calls fst snd negb].

(** *** The handlers *)

(** X20.  Creating a product that meets the field constraints returns the
    product with the drawn identifier and the clock reading as both
    timestamps; reading that identifier afterwards returns the same product,
    and every other identifier reads as before. *)
Theorem create_then_read
    (uuid4 utcnow : nat -> string) (product : ProductCreate) (s : server) :
  valid_base product = true ->
  let created := {| base := product;
                    id := uuid4 (uuid_calls s);
                    created_at := utcnow (clock_calls s);
                    updated_at := utcnow (clock_calls s) |} in
  exists s',
    create_product uuid4 utcnow product s = (Done created, s') /\
    read_product_by_id (id created) s' = (Done created, s') /\
    (forall k, k <> id created ->
       db_get (products_db s') k = db_get (products_db s) k).
Proof.
  intros Hvalid created. run_handler. rewrite Product_init_new, Hvalid.
  eexists. split; [reflexivity|]. cbn [products_db id]. subst created. cbn [id].
  rewrite db_get_set_same. cbn [negb].
  split; [reflexivity|].
  intros k Hk. apply db_get_set_other. exact Hk.
Qed.

Lemma create_then_read_witness :
  valid_base biryani = true /\
  let created := {| base := biryani;
                    id := numbered_id (uuid_calls empty_server);
                    created_at := reading (clock_calls empty_server);
                    updated_at := reading (clock_calls empty_server) |} in
  exists s',
    create_product numbered_id reading biryani empty_server = (Done created, s') /\
    read_product_by_id (id created) s' = (Done created, s') /\
    (forall k, k <> id created ->
       db_get (products_db s') k = db_get (products_db empty_server) k).
Proof.
  split; [reflexivity|].
  apply (create_then_read numbered_id reading biryani empty_server). reflexivity.
Defined.

(** X21.  A created product goes to the end of the table when its
    identifier is new.  When the drawn identifier is already in the table,
    which the handler does not check, the product stored under it is
    replaced where it stands and the number of products stays the same. *)
Theorem create_appends_or_replaces
    (uuid4 utcnow : nat -> string) (product : ProductCreate) (s : server) :
  valid_base product = true ->
  let created := {| base := product;
                    id := uuid4 (uuid_calls s);
                    created_at := utcnow (clock_calls s);
                    updated_at := utcnow (clock_calls s) |} in
  let after := products_db (snd (create_product uuid4 utcnow product s)) in
  match db_get (products_db s) (id created) with
  | None => values after = (values (products_db s) ++ [created])%list
  | Some _ =>
      map fst after = map fst (products_db s) /\
      List.length after = List.length (products_db s) /\
      db_get after (id created) = Some created
  end.
Proof.
  intros Hvalid created after. subst after. run_handler.
  rewrite Product_init_new, Hvalid. cbn [snd products_db]. subst created. cbn [id].
  destruct (db_get (products_db s) (uuid4 (uuid_calls s))) as [old|] eqn:Hget.
  - assert (Hkeys : map fst (db_set (products_db s) (uuid4 (uuid_calls s))
                               {| base := product; id := uuid4 (uuid_calls s);
                                  created_at := utcnow (clock_calls s);
                                  updated_at := utcnow (clock_calls s) |})
                    = map fst (products_db s))
      by (apply db_set_keys_present; congruence).
    split; [exact Hkeys|]. split; [|apply db_get_set_same].
    rewrite <- (length_map fst), Hkeys, length_map. reflexivity.
  - rewrite (db_set_fresh _ _ _ Hget). unfold values. rewrite map_app. reflexivity.
Qed.

Lemma create_appends_or_replaces_witness :
  valid_base biryani = true /\
  let created := {| base := biryani;
                    id := numbered_id (uuid_calls empty_server);
                    created_at := reading (clock_calls empty_server);
                    updated_at := reading (clock_calls empty_server) |} in
  let after :=
    products_db (snd (create_product numbered_id reading biryani empty_server)) in
  match db_get (products_db empty_server) (id created) with
  | None => values after = (values (products_db empty_server) ++ [created])%list
  | Some _ =>
      map fst after = map fst (products_db empty_server) /\
      List.length after = List.length (products_db empty_server) /\
      db_get after (id created) = Some created
  end.
Proof.
  split; [reflexivity|].
  apply (create_appends_or_replaces numbered_id reading biryani empty_server).
  reflexivity.
Defined.

(** X22.  Reading, updating or deleting an identifier that is not in the
    table raises [HTTPException] with status 404 and detail
    ["Product not found"], and leaves the state of the server as it was:
    the update does not even read the clock. *)
Theorem unknown_id_is_not_found
    (utcnow : nat -> string) (k : string) (u : Update.ProductUpdate) (s : server) :
  db_get (products_db s) k = None ->
  read_product_by_id k s = (Failed (HTTPException 404 "Product not found"), s) /\
  update_product utcnow k u s = (Failed (HTTPException 404 "Product not found"), s) /\
  delete_product k s = (Failed (HTTPException 404 "Product not found"), s).
Proof.
  intros H. run_handler. rewrite H. repeat split.
Qed.

Lemma unknown_id_is_not_found_witness :
  db_get (products_db one_product_server) "id-7" = None /\
  read_product_by_id "id-7" one_product_server
  = (Failed (HTTPException 404 "Product not found"), one_product_server) /\
  update_product reading "id-7" price_update one_product_server
  = (Failed (HTTPException 404 "Product not found"), one_product_server) /\
  delete_product "id-7" one_product_server
  = (Failed (HTTPException 404 "Product not found"), one_product_server).
Proof.
  split; [reflexivity|].
  apply (unknown_id_is_not_found reading "id-7" price_update one_product_server).
  reflexivity.
Defined.

(** X23.  Deleting an identifier that is in the table returns the message
    ["Product deleted successfully"]; afterwards that identifier reads as
    not found, every other identifier reads as before, and the products
    left are those of before without the deleted one, in the same order. *)
Theorem delete_removes_one
    (k : string) (p : Product) (s : server) :
  db_ok (products_db s) ->
  db_get (products_db s) k = Some p ->
  exists s',
    delete_product k s = (Done "Product deleted successfully", s') /\
    read_product_by_id k s' = (Failed (HTTPException 404 "Product not found"), s') /\
    (forall k', k' <> k -> db_get (products_db s') k' = db_get (products_db s) k') /\
    values (products_db s')
    = filter (fun q => negb (String.eqb k (id q))) (values (products_db s)) /\
    S (List.length (products_db s')) = List.length (products_db s).
Proof.
  intros Hok Hget. run_handler. rewrite Hget. cbn [negb].
  eexists. split; [reflexivity|]. cbn [products_db].
  rewrite (db_get_del_same _ k (proj1 Hok)). cbn [negb].
  split; [reflexivity|]. split.
  { intros k' Hk'. apply db_get_del_other. exact Hk'. }
  split; [apply values_del; exact Hok|].
  apply db_del_length. congruence.
Qed.

Lemma one_product_server_ok : db_ok (products_db one_product_server).
Proof.
  split.
  - cbn. constructor; [intros [] | constructor].
  - cbn. constructor; [split; reflexivity | constructor].
Qed.

Lemma delete_removes_one_witness :
  db_ok (products_db one_product_server) /\
  (exists p, db_get (products_db one_product_server) "id-0" = Some p) /\
  exists s',
    delete_product "id-0" one_product_server
    = (Done "Product deleted successfully", s') /\
    read_product_by_id "id-0" s'
    = (Failed (HTTPException 404 "Product not found"), s') /\
    (forall k', k' <> "id-0" ->
       db_get (products_db s') k' = db_get (products_db one_product_server) k') /\
    values (products_db s')
    = filter (fun q => negb (String.eqb "id-0" (id q)))
        (values (products_db one_product_server)) /\
    S (List.length (products_db s')) = List.length (products_db one_product_server).
Proof.
  split; [exact one_product_server_ok|].
  split; [eexists; reflexivity|].
  eapply (delete_removes_one "id-0" _ one_product_server);
    [exact one_product_server_ok | reflexivity].
Defined.

(** X24.  An update of a stored product that gives no field as [None] and
    no value outside its constraint returns the product with the given
    fields replaced, the other fields, [id] and [created_at] kept, and
    [updated_at] set to the clock reading.  The product is stored under the
    same identifier at the same place in the table, and every other
    identifier reads as before. *)
Theorem update_applies
    (utcnow : nat -> string) (k : string) (old : Product)
    (u : Update.ProductUpdate) (s : server) :
  db_ok (products_db s) ->
  db_get (products_db s) k = Some old ->
  rebuild_fails u = false ->
  let new := updated old u (utcnow (clock_calls s)) in
  exists s',
    update_product utcnow k u s = (Done new, s') /\
    id new = k /\
    read_product_by_id k s' = (Done new, s') /\
    map fst (products_db s') = map fst (products_db s) /\
    (forall k', k' <> k -> db_get (products_db s') k' = db_get (products_db s) k').
Proof.
  intros Hok Hget Hfails new.
  destruct (db_ok_valid _ _ _ Hok Hget) as [Hid Hvalid].
  run_handler. rewrite Hget. cbn [negb products_db clock_calls].
  rewrite (Product_init_update old u _ Hvalid), Hfails.
  cbn [products_db]. rewrite db_get_set_same.
  eexists. split; [reflexivity|]. cbn [products_db].
  rewrite db_get_set_same. cbn [negb].
  split; [exact Hid|]. split; [reflexivity|]. split.
  - apply db_set_keys_present. congruence.
  - intros k' Hk'. apply db_get_set_other. exact Hk'.
Qed.

Lemma update_applies_witness :
  db_ok (products_db one_product_server) /\
  (exists old,
     db_get (products_db one_product_server) "id-0" = Some old /\
     rebuild_fails price_update = false /\
     let new := updated old price_update (reading (clock_calls one_product_server)) in
     price (base new) == 175 # 1 /\
     name (base new) = "Chicken Biryani" /\
     exists s',
       update_product reading "id-0" price_update one_product_server = (Done new, s') /\
       id new = "id-0" /\
       read_product_by_id "id-0" s' = (Done new, s') /\
       map fst (products_db s') = map fst (products_db one_product_server) /\
       (forall k', k' <> "id-0" ->
          db_get (products_db s') k' = db_get (products_db one_product_server) k')).
Proof.
  split; [exact one_product_server_ok|].
  eexists. split; [reflexivity|]. split; [reflexivity|].
  split; [reflexivity|]. split; [reflexivity|].
  apply (update_applies reading "id-0" _ price_update one_product_server);
    [exact one_product_server_ok | reflexivity | reflexivity].
Defined.

(** X25.  An update of a stored product that gives a field as [None], a
    name shorter than three characters, a price that is not positive or a
    negative stock makes the rebuilt [Product] fail its validation: the
    handler raises [ValidationError] after it has read the clock, and the
    table is left as it was. *)
Theorem update_rejects
    (utcnow : nat -> string) (k : string) (old : Product)
    (u : Update.ProductUpdate) (s : server) :
  db_get (products_db s) k = Some old ->
  rebuild_fails u = true ->
  update_product utcnow k u s
  = (Failed ValidationError,
     {| products_db := products_db s;
        uuid_calls := uuid_calls s;
        clock_calls := S (clock_calls s) |}).
Proof.
  intros Hget Hfails. run_handler. rewrite Hget. cbn [negb products_db clock_calls].
  rewrite (Product_init_rejects old u _ Hfails). reflexivity.
Qed.

Lemma update_rejects_witness :
  valid_update short_name_update = true /\
  (exists old, db_get (products_db one_product_server) "id-0" = Some old) /\
  rebuild_fails short_name_update = true /\
  update_product reading "id-0" short_name_update one_product_server
  = (Failed ValidationError,
     {| products_db := products_db one_product_server;
        uuid_calls := uuid_calls one_product_server;
        clock_calls := S (clock_calls one_product_server) |}).
Proof.
  split; [reflexivity|]. split; [eexists; reflexivity|]. split; [reflexivity|].
  eapply (update_rejects reading "id-0" _ short_name_update one_product_server);
    reflexivity.
Defined.

Lemma seed_each_ok (uuid4 : nat -> string) (now_iso : string)
    (products : list ProductCreate) :
  forall s, db_ok (products_db s) ->
            db_ok (products_db (snd (seed_each uuid4 now_iso products s))).
Proof.
  induction products as [|product rest IH]; intros s Hok; [exact Hok|].
  cbn [seed_each]. unfold hbind, new_id, lift_reply, put.
  rewrite Product_init_new.
  destruct (valid_base product) eqn:Hvalid; cbn [snd products_db]; [|exact Hok].
  apply IH. cbn [products_db]. apply db_ok_set; [exact Hok | reflexivity | exact Hvalid].
Qed.

(** X26.  The table keeps its shape under every handler that writes to it:
    when no identifier occurs twice, every product is stored under its own
    [id] and every product meets the field constraints, the same holds
    after [create_product], [update_product] and [delete_product], whatever
    their arguments and whether or not they raise; after [seed_data] it
    holds whatever the table held before. *)
Theorem table_stays_well_formed
    (uuid4 utcnow : nat -> string) (product : ProductCreate) (k : string)
    (u : Update.ProductUpdate) (s : server) :
  db_ok (products_db s) ->
  db_ok (products_db (snd (create_product uuid4 utcnow product s))) /\
  db_ok (products_db (snd (update_product utcnow k u s))) /\
  db_ok (products_db (snd (delete_product k s))) /\
  forall s0, db_ok (products_db (snd (seed_data uuid4 utcnow s0))).
Proof.
  intros Hok. split; [|split; [|split]].
  - run_handler. rewrite Product_init_new.
    destruct (valid_base product) eqn:Hvalid; cbn [snd products_db]; [|exact Hok].
    apply db_ok_set; [exact Hok | reflexivity | exact Hvalid].
  - run_handler.
    destruct (db_get (products_db s) k) as [old|] eqn:Hget; cbn [negb snd]; [|exact Hok].
    destruct (db_ok_valid _ _ _ Hok Hget) as [Hid Hvalid].
    cbn [products_db clock_calls].
    rewrite (Product_init_update old u _ Hvalid).
    destruct (rebuild_fails u) eqn:Hfails; cbn [snd products_db]; [exact Hok|].
    rewrite db_get_set_same. cbn [snd products_db].
    apply db_ok_set; [exact Hok | exact Hid |].
    apply updated_valid; assumption.
  - run_handler.
    destruct (db_get (products_db s) k) as [old|]; cbn [negb snd products_db];
      [|exact Hok].
    apply db_ok_del. exact Hok.
  - intros s0. unfold seed_data, hbind, clear, get_iso_now.
    cbn [products_db uuid_calls clock_calls].
    match goal with
    | |- context [seed_each ?u ?n ?l ?st] =>
        pose proof (seed_each_ok u n l st db_ok_empty) as Hseed;
        destruct (seed_each u n l st) as [[[]|f] s1]
    end; exact Hseed.
Qed.

Lemma table_stays_well_formed_witness :
  db_ok (products_db one_product_server) /\
  db_ok (products_db
           (snd (create_product numbered_id reading biryani one_product_server))) /\
  db_ok (products_db
           (snd (update_product reading "id-0" price_update one_product_server))) /\
  db_ok (products_db (snd (delete_product "id-0" one_product_server))) /\
  forall s0, db_ok (products_db (snd (seed_data numbered_id reading s0))).
Proof.
  split; [exact one_product_server_ok|].
  apply (table_stays_well_formed numbered_id reading biryani "id-0" price_update
           one_product_server).
  exact one_product_server_ok.
Defined.

(** X27.  [read_all_products] never changes the state.  Without a
    category, or with the empty string as category, it returns every
    product in the order of the table.  With a category that is not empty
    it returns the products whose category equals it once both are
    lower-cased, so two categories with the same lower-case form give the
    same answer. *)
Theorem category_filter
    (lower : string -> string) (c : string) (s : server) :
  c <> "" ->
  read_all_products lower None s = (Done (values (products_db s)), s) /\
  read_all_products lower (Some "") s = (Done (values (products_db s)), s) /\
  exists l,
    read_all_products lower (Some c) s = (Done l, s) /\
    (forall p, In p l <->
               In p (values (products_db s)) /\ lower (category (base p)) = lower c) /\
    (forall c', c' <> "" -> lower c' = lower c ->
                read_all_products lower (Some c') s = (Done l, s)).
Proof.
  intros Hc.
  assert (Hlen : forall x : string, x <> "" -> negb (String.length x =? 0)%nat = true).
  { intros x Hx. destruct x; [destruct (Hx eq_refl) | reflexivity]. }
  split; [reflexivity|]. split; [reflexivity|].
  unfold read_all_products. rewrite (Hlen c Hc).
  eexists. split; [reflexivity|]. split.
  - intros p. rewrite filter_In, String.eqb_eq. reflexivity.
  - intros c' Hc' Hsame. rewrite (Hlen c' Hc'), Hsame. reflexivity.
Qed.

Lemma category_filter_witness :
  "snack" <> "" /\
  read_all_products ascii_lower (Some "SNACK") two_product_server
  = (Done [stamped "id-1" "t1" mandazi], two_product_server) /\
  read_all_products ascii_lower None two_product_server
  = (Done (values (products_db two_product_server)), two_product_server) /\
  read_all_products ascii_lower (Some "") two_product_server
  = (Done (values (products_db two_product_server)), two_product_server) /\
  exists l,
    read_all_products ascii_lower (Some "snack") two_product_server
    = (Done l, two_product_server) /\
    (forall p, In p l <->
               In p (values (products_db two_product_server)) /\
               ascii_lower (category (base p)) = ascii_lower "snack") /\
    (forall c', c' <> "" -> ascii_lower c' = ascii_lower "snack" ->
                read_all_products ascii_lower (Some c') two_product_server
                = (Done l, two_product_server)).
Proof.
  assert (H : "snack" <> "") by discriminate.
  split; [exact H|]. split; [vm_compute; reflexivity|].
  apply (category_filter ascii_lower "snack" two_product_server H).
Defined.

(** X28.  [seed_data] throws away what the table held, reads the clock
    once, draws three identifiers and answers
    ["3 products seeded successfully."].  Every product then in the table is
    one of the three samples, stamped with that one clock reading; when the
    three identifiers differ, the table holds the three samples in the
    order Jollof Rice, Mandazi, Chapati. *)
Theorem seed_replaces_table
    (uuid4 utcnow : nat -> string) (s : server) :
  let now_iso := utcnow (clock_calls s) in
  let drawn n := uuid4 (n + uuid_calls s)%nat in
  exists s',
    seed_data uuid4 utcnow s = (Done "3 products seeded successfully.", s') /\
    uuid_calls s' = (3 + uuid_calls s)%nat /\
    clock_calls s' = S (clock_calls s) /\
    Forall (fun p => In (base p) products_to_add /\
                     created_at p = now_iso /\ updated_at p = now_iso)
      (values (products_db s')) /\
    (NoDup [drawn 0%nat; drawn 1%nat; drawn 2%nat] ->
     values (products_db s')
     = map (fun entry => stamped (drawn (fst entry)) now_iso (snd entry))
         (combine [0%nat; 1%nat; 2%nat] products_to_add)).
Proof.
  intros now_iso drawn. subst now_iso drawn.
  unfold seed_data, hbind, clear, get_iso_now, products_to_add.
  cbn [products_db uuid_calls clock_calls seed_each].
  unfold hbind, new_id, lift_reply, put, answer.
  cbn [products_db uuid_calls clock_calls Product_init new_product_item item_name
         item_price item_category item_stock_quantity item_id item_created_at
         item_updated_at name price category stock_quantity].
  cbn [valid_name valid_price valid_stock String.length Nat.leb Qnum Z.ltb Z.leb
         Z.compare andb db_set List.length Z.of_nat Pos.of_succ_nat Pos.succ
         str_of_int].
  eexists. split; [reflexivity|]. cbn [uuid_calls clock_calls products_db Nat.add].
  split; [reflexivity|]. split; [reflexivity|].
  destruct (String.eqb (uuid4 (S (uuid_calls s))) (uuid4 (uuid_calls s))) eqn:E10;
    cbn [db_set];
    destruct (String.eqb (uuid4 (S (S (uuid_calls s)))) (uuid4 (uuid_calls s))) eqn:E20;
    cbn [db_set]; rewrite ?E10, ?E20; cbn [db_set];
    try destruct (String.eqb (uuid4 (S (S (uuid_calls s)))) (uuid4 (S (uuid_calls s))))
      eqn:E21;
    cbn [db_set values map snd fst combine stamped];
    (split;
     [ repeat constructor; cbn [base]; tauto
     | intros Hnd;
       try (apply String.eqb_eq in E10; exfalso;
            inversion Hnd as [|? ? Hnot _]; apply Hnot; cbn [In]; auto);
       try (apply String.eqb_eq in E20; exfalso;
            inversion Hnd as [|? ? Hnot _]; apply Hnot; cbn [In]; auto);
       try (apply String.eqb_eq in E21; exfalso;
            inversion Hnd as [|? ? _ Hnd']; inversion Hnd' as [|? ? Hnot _];
            apply Hnot; cbn [In]; auto);
       try reflexivity ]).
Qed.

Lemma seed_replaces_table_witness :
  NoDup [numbered_id (0 + uuid_calls one_product_server);
         numbered_id (1 + uuid_calls one_product_server);
         numbered_id (2 + uuid_calls one_product_server)] /\
  let now_iso := reading (clock_calls one_product_server) in
  let drawn n := numbered_id (n + uuid_calls one_product_server)%nat in
  exists s',
    seed_data numbered_id reading one_product_server
    = (Done "3 products seeded successfully.", s') /\
    uuid_calls s' = (3 + uuid_calls one_product_server)%nat /\
    clock_calls s' = S (clock_calls one_product_server) /\
    Forall (fun p => In (base p) products_to_add /\
                     created_at p = now_iso /\ updated_at p = now_iso)
      (values (products_db s')) /\
    (NoDup [drawn 0%nat; drawn 1%nat; drawn 2%nat] ->
     values (products_db s')
     = map (fun entry => stamped (drawn (fst entry)) now_iso (snd entry))
         (combine [0%nat; 1%nat; 2%nat] products_to_add)).
Proof.
  split.
  - repeat constructor; cbn; intuition discriminate.
  - apply (seed_replaces_table numbered_id reading one_product_server).
Defined.

End ProductFacts.
